(** * create-embeddings-store.js: the embedding ingestion loop

    A shallow embedding of [main] of [src/create-embeddings-store.js], from
    the loaded array of test cases on: the loop that builds a prompt for every
    test case, posts it to the embedding API, adds the reported cost and
    tokens to the running totals and inserts the enriched document into the
    MongoDB collection, and the average of the summary.

    What is modelled
    - JavaScript values as parsed from JSON ([value]); objects are finite maps
      from property names to values, as [JSON.parse] builds them.
    - Exceptions and the mutable variables of [main] ([totalCost],
      [totalTokens]), the collection and the console, by a state-and-exception
      monad [js] in which an exception leaves the state as it was when it was
      thrown: JavaScript does not roll assignments back.
    - The conversions the loop applies to what it reads (ToString in template
      literals, ToBoolean in [||], ToPrimitive and ToNumber in [+=]) and the
      TypeErrors of property reads and method calls on the wrong kind of
      value, wherever in lines 48-120 they can arise.
    - The outside world ([axios.post], [collection.insertOne], [new Date()])
      as a [world] of oracles indexed by the position of the record in the
      batch.
    - JavaScript numbers through the interface [JsNumber]; [binary64] is the
      IEEE 754 instance (the one a JavaScript engine runs), on the kernel's
      primitive floats, and [ieee] prints them as Number::toString does.

    What is not modelled: the text of the console lines (only the fact that
    evaluating one may throw), the 100ms pause, and the connection set-up
    and the reading of the input file that precede the loop. *)

From Stdlib Require Import Ascii String Floats ZArith Lia.
From stdpp Require Import gmap strings list fin_maps pretty.

Local Open Scope string_scope.

(** ** Numbers *)

(** The operations of JavaScript numbers that [main] relies on. [n_eqb] is
    the comparison behind [===] on numbers ([NaN] differs from itself),
    [n_to_string] is [Number::toString], [n_of_nat] reads an array or string
    length (and the literal [200]) as a number. *)
Class JsNumber := {
  number : Type;
  n_zero : number;
  n_one : number;
  n_nan : number;
  n_of_nat : nat -> number;
  n_add : number -> number -> number;
  n_div : number -> number -> number;
  n_eqb : number -> number -> bool;
  n_leb : number -> number -> bool;
  n_to_string : number -> string;
}.

(** The order facts about [+] used for the monotonicity of the totals. They
    are proved of the IEEE 754 doubles below ([binary64_order]): [<=] is
    false on [NaN], so every hypothesis excludes it, and rounding to nearest
    never takes a sum of two doubles that are not negative below either. *)
Class NumberOrder (N : JsNumber) : Prop := {
  n_leb_zero : n_leb n_zero n_zero = true;
  n_leb_refl : forall a, n_leb n_zero a = true -> n_leb a a = true;
  n_leb_trans : forall a b c,
    n_leb a b = true -> n_leb b c = true -> n_leb a c = true;
  n_add_nonneg : forall a c,
    n_leb n_zero a = true -> n_leb n_zero c = true -> n_leb a (n_add a c) = true;
}.

(** IEEE 754 binary64, the numbers of a JavaScript engine. The decimal
    rendering of a double is a parameter; [double_to_string] below is the
    one of JavaScript. *)
Definition binary64 (fmt : float -> string) : JsNumber := {|
  number := float;
  n_zero := 0%float;
  n_one := 1%float;
  n_nan := nan;
  n_of_nat := fun n => PrimFloat.of_uint63 (Uint63.of_Z (Z.of_nat n));
  n_add := PrimFloat.add;
  n_div := PrimFloat.div;
  n_eqb := PrimFloat.eqb;
  n_leb := PrimFloat.leb;
  n_to_string := fmt;
|}.

(** ** Values *)

(** The values the program handles: what [JSON.parse] and axios produce, and
    [undefined] for what a property read finds missing. *)
#[warnings="-register-all"]
Inductive value {N : JsNumber} :=
 | VUndefined
 | VNull
 | VBool (b : bool)
 | VNum (n : number)
 | VStr (s : string)
 | VArr (l : list value)
 | VObj (m : gmap string value).

(** ** Errors and completions *)

(** What [axios.post] rejects with: a response with a status outside 2xx, a
    request that got no response, or a failure before the request left. *)
Inductive axios_error {N : JsNumber} :=
 | BadStatus (status : number) (body : value)
 | NoResponse
 | SetupFailure (message : string).

(** The exceptions that can arise in the loop. *)
Inductive error {N : JsNumber} :=
 | TypeError
 | ApiError (message : string)
 | AxiosError (e : axios_error)
 | MongoError.

(** An expression either yields a value or throws. *)
Inductive completion {N : JsNumber} (A : Type) :=
 | Return (a : A)
 | Throw (e : error).

Arguments Return {N A} a.
Arguments Throw {N A} e.

#[export] Instance completion_ret {N : JsNumber} : MRet completion :=
  fun A a => Return a.

#[export] Instance completion_bind {N : JsNumber} : MBind completion :=
  fun A B f c => match c with Return a => f a | Throw e => Throw e end.

Section Values.
Context {N : JsNumber}.

Definition throw {A} (e : error) : completion A := Throw e.

(** [v == null]: the two values a property read or a call throws on. *)
Definition nullish (v : value) : bool :=
  match v with
  | VUndefined | VNull => true
  | _ => false
  end.

(** [v.k] for a property name [k]. Reading a property of [undefined] or
    [null] is a TypeError. Objects give their own property, arrays and
    strings their [length]; no other name that [main] reads is defined on a
    prototype, so any other read of a primitive or an array is [undefined]. *)
Definition get (v : value) (k : string) : completion value :=
  match v with
  | VUndefined | VNull => throw TypeError
  | VObj m => mret (default VUndefined (m !! k))
  | VArr l =>
      mret (if decide (k = "length") then VNum (n_of_nat (length l))
            else VUndefined)
  | VStr s =>
      mret (if decide (k = "length") then VNum (n_of_nat (String.length s))
            else VUndefined)
  | VNum _ | VBool _ => mret VUndefined
  end.

(** [v[0]]: the first element of an array, the first character of a string,
    the property ["0"] of an object. *)
Definition get_first (v : value) : completion value :=
  match v with
  | VUndefined | VNull => throw TypeError
  | VArr l => mret (default VUndefined (head l))
  | VStr s =>
      mret (match s with
            | EmptyString => VUndefined
            | String c _ => VStr (String c EmptyString)
            end)
  | VObj m => mret (default VUndefined (m !! "0"))
  | VNum _ | VBool _ => mret VUndefined
  end.

(** [v?.k] *)
Definition get_optional (v : value) (k : string) : completion value :=
  if nullish v then mret VUndefined else get v k.

(** ToBoolean: the falsy values are [undefined], [null], [false], [+0], [-0],
    [NaN] and the empty string. *)
Definition truthy (v : value) : bool :=
  match v with
  | VUndefined | VNull => false
  | VBool b => b
  | VNum n => n_eqb n n && negb (n_eqb n n_zero)
  | VStr s => negb (String.eqb s "")
  | VArr _ | VObj _ => true
  end.

(** [a || b] on already evaluated operands (the right operands in [main] are
    literals). *)
Definition or_else (a b : value) : value := if truthy a then a else b.

(** [v === 200] *)
Definition is_200 (v : value) : bool :=
  match v with
  | VNum n => n_eqb n (n_of_nat 200)
  | _ => false
  end.

(** ToString, as a template literal applies it. An object parsed from JSON
    prints as ["[object Object]"] unless it has an own property [toString]:
    that property is not callable, so neither is the inherited [valueOf] of
    any help and the conversion is a TypeError. An array is joined with
    commas, [undefined] and [null] elements printing as nothing. *)
Fixpoint to_string (v : value) : completion string :=
  match v with
  | VUndefined => mret "undefined"
  | VNull => mret "null"
  | VBool true => mret "true"
  | VBool false => mret "false"
  | VNum n => mret (n_to_string n)
  | VStr s => mret s
  | VArr l =>
      let element x := if nullish x then mret "" else to_string x in
      (fix join (xs : list value) : completion string :=
         match xs with
         | [] => mret ""
         | [x] => element x
         | x :: rest => s ← element x; t ← join rest; mret (s ++ "," ++ t)
         end) l
  | VObj m =>
      match m !! "toString" with
      | Some _ => throw TypeError
      | None => mret "[object Object]"
      end
  end.

(** [cost.toFixed(6)] is a method of numbers only; on any other value
    [toFixed] is missing or not callable. The digits go to the console. *)
Definition to_fixed (v : value) : completion number :=
  match v with
  | VNum n => mret n
  | _ => throw TypeError
  end.

(** [description.substring(0, 50)] is a method of strings only. *)
Definition substring_0_50 (v : value) : completion string :=
  match v with
  | VStr s => mret (String.substring 0 50 s)
  | _ => throw TypeError
  end.

(** The accumulator [totalTokens] holds what [+] returns: a number or a
    string. *)
Inductive total :=
 | TNum (n : number)
 | TStr (s : string).

Definition total_to_string (t : total) : string :=
  match t with
  | TNum n => n_to_string n
  | TStr s => s
  end.

(** [a + b] when [b] is a primitive other than a string: [s] is its
    ToString and [n] its ToNumber. *)
Definition plus_primitive (a : total) (s : string) (n : number) : total :=
  match a with
  | TStr x => TStr (x ++ s)
  | TNum x => TNum (n_add x n)
  end.

(** [a + b] for an accumulator [a]. ToPrimitive turns an object or an array
    into its string; a string on either side makes [+] a concatenation;
    otherwise both sides are numbers after ToNumber. *)
Definition plus (a : total) (b : value) : completion total :=
  match b with
  | VStr s => mret (TStr (total_to_string a ++ s))
  | VArr _ | VObj _ => s ← to_string b; mret (TStr (total_to_string a ++ s))
  | VNum y => mret (plus_primitive a (n_to_string y) y)
  | VBool true => mret (plus_primitive a "true" n_one)
  | VBool false => mret (plus_primitive a "false" n_zero)
  | VNull => mret (plus_primitive a "null" n_zero)
  | VUndefined => mret (plus_primitive a "undefined" n_nan)
  end.

(** The own enumerable properties that [{...v}] copies. *)
Definition own_properties (v : value) : gmap string value :=
  match v with
  | VObj m => m
  | VArr l => list_to_map (imap (fun i x => (pretty i, x)) l)
  | VStr s =>
      list_to_map (imap (fun i c => (pretty i, VStr (String c EmptyString)))
                        (String.list_ascii_of_string s))
  | _ => ∅
  end.

End Values.

(** ** Documents, state and the outside world *)

(** A field of the document handed to [insertOne]: a JSON value, or the
    [Date] that [new Date()] made (milliseconds since the epoch). *)
Inductive field {N : JsNumber} :=
 | Json (v : value)
 | Date (ms : Z).

(** The branch of the per-record [catch] that reports the error. *)
Inductive diagnostic {N : JsNumber} :=
 | HttpStatus (status : number) (body : value)
 | NoResponseReceived
 | ErrorMessage.

(** What the run shows on the console and on the network, per record. *)
Inductive event {N : JsNumber} :=
 | Processing (i : nat)
 | Request (i : nat) (input : string)
 | Inserted (i : nat)
 | Skipping (i : nat) (d : diagnostic).

(** The variables [main] assigns to, the documents it has added to the
    collection and its console. *)
Record state {N : JsNumber} := {
  totalCost : number;
  totalTokens : total;
  collection : list (gmap string field);
  console : list event;
}.

(** The outcome of [await axios.post(...)]: axios resolves on a 2xx status
    and rejects otherwise. *)
Inductive response {N : JsNumber} :=
 | Resolved (status : number) (data : value)
 | Rejected (e : axios_error).

(** The collaborators of the run. Record [i] of the batch gets
    [axios_post i] for its request, [insertOne i] for its write ([None]: the
    driver throws; [Some id]: the document is in the collection and [id] is
    [result.insertedId]) and [new_Date i] for its timestamp. *)
Record world {N : JsNumber} := {
  axios_post : nat -> string -> response;
  insertOne : nat -> gmap string field -> option value;
  new_Date : nat -> Z;
}.

(** Statements: state is threaded through, and an exception carries the
    state reached when it was thrown. *)
Definition js {N : JsNumber} (A : Type) : Type := state -> completion A * state.

#[export] Instance js_ret {N : JsNumber} : MRet js :=
  fun A a s => (Return a, s).

#[export] Instance js_bind {N : JsNumber} : MBind js :=
  fun A B f c s =>
    match c s with
    | (Return a, s') => f a s'
    | (Throw e, s') => (Throw e, s')
    end.

Section Pipeline.
Context {N : JsNumber}.

(** An expression evaluated inside a statement. *)
Definition eval {A} (c : completion A) : js A := fun s => (c, s).

Definition console_log (e : event) : js unit :=
  fun s => (Return (),
            {| totalCost := totalCost s; totalTokens := totalTokens s;
               collection := collection s; console := console s ++ [e] |}).

(** [try { body } catch (error) { handler(error) }] *)
Definition try_catch (body : js unit) (handler : error -> js unit) : js unit :=
  fun s =>
    match body s with
    | (Return tt, s') => (Return tt, s')
    | (Throw e, s') => handler e s'
    end.

Definition nl : string := String "010"%char EmptyString.

(** Line 48, before the [try]: the console line needs [testcase.id] printed
    and [testcase.description.substring(0, 50)]. *)
Definition announce (testcase : value) : completion unit :=
  id ← get testcase "id";
  _ ← to_string id;
  description ← get testcase "description";
  _ ← substring_0_50 description;
  mret ().

(** A template literal: the literal chunks with the substitutions printed
    between them, evaluated left to right. *)
Fixpoint template (first : string) (rest : list (completion value * string))
  : completion string :=
  match rest with
  | [] => mret first
  | (e, chunk) :: rest' =>
      v ← e;
      s ← to_string v;
      t ← template chunk rest';
      mret (first ++ s ++ t)
  end.

(** Lines 52-59. *)
Definition inputText (testcase : value) : completion string :=
  template (nl ++ "          ID: ")
    [ (get testcase "id", nl ++ "          Module: ");
      (get testcase "module", nl ++ "          Title: ");
      (get testcase "title", nl ++ "          Description: ");
      (get testcase "description", nl ++ "          Steps: ");
      (get testcase "steps", nl ++ "          Expected Result: ");
      (get testcase "expectedResults", nl ++ "        ") ].

(** What lines 86-88 and 106 take from an accepted response. *)
Record embedding_result := {
  vector : value;
  cost : number;
  tokens : value;
  model : value;
}.

(** Lines 76-95 on the body [embeddingResponse.data] of a resolved request:
    the console lines (which print [data.status], [data.message], the model,
    the cost, the tokens and the vector length), the check of the status
    inside the body, and the three reads. *)
Definition read_response (data : value) : completion embedding_result :=
  status ← get data "status";
  _ ← to_string status;
  message ← get data "message";
  _ ← to_string (or_else message (VStr "No message"));
  _ ← (if is_200 status then mret ()
       else text ← to_string message;
            throw (ApiError ("Testleaf API error: " ++ text)));
  items ← get data "data";
  item ← get_first items;
  vector ← get item "embedding";
  cost ← get data "cost";
  let cost := or_else cost (VNum n_zero) in
  usage ← get data "usage";
  total_tokens ← get_optional usage "total_tokens";
  let tokens := or_else total_tokens (VNum n_zero) in
  model ← get data "model";
  _ ← to_string model;
  cost ← to_fixed cost;
  _ ← to_string tokens;
  dimensions ← get_optional vector "length";
  _ ← to_string (or_else dimensions (VStr "Unknown"));
  mret {| vector := vector; cost := cost; tokens := tokens; model := model |}.

(** Lines 62-74: the request, then the reading of its response. *)
Definition request_embedding (w : world) (i : nat) (input : string)
  : js embedding_result :=
  console_log (Request i input);;
  match axios_post w i input with
  | Rejected e => eval (throw (AxiosError e))
  | Resolved _ data => eval (read_response data)
  end.

(** Lines 97-98. *)
Definition add_to_totals (r : embedding_result) : js unit :=
  fun s =>
    let s1 := {| totalCost := n_add (totalCost s) (cost r);
                 totalTokens := totalTokens s;
                 collection := collection s; console := console s |} in
    match plus (totalTokens s1) (tokens r) with
    | Return t =>
        (Return (),
         {| totalCost := totalCost s1; totalTokens := t;
            collection := collection s1; console := console s1 |})
    | Throw e => (Throw e, s1)
    end.

(** Lines 105-110. *)
Definition embeddingMetadata (r : embedding_result) : value :=
  VObj (<["model" := model r]>
       (<["cost" := VNum (cost r)]>
       (<["tokens" := tokens r]>
       (<["apiSource" := VStr "testleaf"]> ∅)))).

(** Lines 101-111: the spread of the test case, then the three keys. *)
Definition make_doc (testcase : value) (r : embedding_result) (created : Z)
  : gmap string field :=
  <["embeddingMetadata" := Json (embeddingMetadata r)]>
  (<["createdAt" := Date created]>
  (<["embedding" := Json (vector r)]>
  (Json <$> own_properties testcase))).

(** Line 114: the write. *)
Definition insert_doc (w : world) (i : nat) (doc : gmap string field) : js value :=
  fun s =>
    match insertOne w i doc with
    | Some id =>
        (Return id,
         {| totalCost := totalCost s; totalTokens := totalTokens s;
            collection := collection s ++ [doc]; console := console s |})
    | None => (Throw MongoError, s)
    end.

(** Lines 115-120: the console lines after the write. The test case id, the
    cost and the tokens were printed before; line 119 prints
    [result.insertedId]. *)
Definition report_insert (i : nat) (id : value) : js unit :=
  console_log (Inserted i);;
  _ ← eval (to_string id);
  mret ().

(** Lines 129-141: which of [error.response], [error.request] is set. *)
Definition diagnose (e : error) : diagnostic :=
  match e with
  | AxiosError (BadStatus status body) => HttpStatus status body
  | AxiosError NoResponse => NoResponseReceived
  | _ => ErrorMessage
  end.

(** Lines 50-146: the body of the [try] and its [catch]. *)
Definition process (w : world) (i : nat) (testcase : value) : js unit :=
  try_catch
    (input ← eval (inputText testcase);
     r ← request_embedding w i input;
     add_to_totals r;;
     id ← insert_doc w i (make_doc testcase r (new_Date w i));
     report_insert i id)
    (fun e => console_log (Skipping i (diagnose e))).

(** Lines 48-146: one turn of the loop. *)
Definition iteration (w : world) (i : nat) (testcase : value) : js unit :=
  eval (announce testcase);;
  console_log (Processing i);;
  process w i testcase.

(** Lines 47-147: [for (const testcase of testcases)], from record [i] on. *)
Fixpoint for_of (w : world) (i : nat) (testcases : list value) : js unit :=
  match testcases with
  | [] => mret ()
  | testcase :: rest => iteration w i testcase;; for_of w (S i) rest
  end.

(** Lines 44-45. *)
Definition initial : state :=
  {| totalCost := n_zero; totalTokens := TNum n_zero;
     collection := []; console := [] |}.

(** Line 152: [totalCost / testcases.length]; [toFixed] is defined on every
    number. *)
Definition average (testcases : list value) : js number :=
  fun s => (Return (n_div (totalCost s) (n_of_nat (length testcases))), s).

(** Lines 44-152: the totals, the loop and the average of the summary. An
    exception that leaves the loop reaches the outer [catch] of [main] and
    the summary is not printed. *)
Definition main (w : world) (testcases : list value) : completion number * state :=
  (for_of w 0 testcases;; average testcases) initial.

End Pipeline.

(** ** The run seen record by record *)

Section Outcomes.
Context {N : JsNumber}.

(** The embedding stage of record [i]: the prompt, the request and the
    reading of the response (lines 52-95). *)
Definition embedding (w : world) (i : nat) (testcase : value)
  : completion embedding_result :=
  input ← inputText testcase;
  match axios_post w i input with
  | Rejected e => throw (AxiosError e)
  | Resolved _ data => read_response data
  end.

(** What becomes of record [i]: its error leaves the loop, its embedding
    stage fails, its write fails, or its document is stored. *)
Inductive outcome :=
 | Escaped (e : error)
 | EmbeddingFailed (e : error)
 | WriteFailed (r : embedding_result)
 | Stored (r : embedding_result) (doc : gmap string field).

Definition outcome_of (w : world) (i : nat) (testcase : value) : outcome :=
  match announce testcase with
  | Throw e => Escaped e
  | Return _ =>
      match embedding w i testcase with
      | Throw e => EmbeddingFailed e
      | Return r =>
          let doc := make_doc testcase r (new_Date w i) in
          if insertOne w i doc is Some _ then Stored r doc else WriteFailed r
      end
  end.

(** The outcomes of the records the loop reaches, from record [i] on. *)
Fixpoint outcomes (w : world) (i : nat) (testcases : list value) : list outcome :=
  match testcases with
  | [] => []
  | testcase :: rest =>
      match outcome_of w i testcase with
      | Escaped e => [Escaped e]
      | o => o :: outcomes w (S i) rest
      end
  end.

Definition stored_doc (o : outcome) : option (gmap string field) :=
  match o with
  | Stored _ doc => Some doc
  | _ => None
  end.

(** The result of an embedding stage that passed. *)
Definition accepted (o : outcome) : option embedding_result :=
  match o with
  | WriteFailed r | Stored r _ => Some r
  | _ => None
  end.

Definition is_stored (o : outcome) : bool :=
  match o with
  | Stored _ _ => true
  | _ => false
  end.

(** The record passed the embedding stage. *)
Definition is_accepted (o : outcome) : bool :=
  match o with
  | WriteFailed _ | Stored _ _ => true
  | _ => false
  end.

(** [t + v], the accumulator staying as it is should [+] throw. *)
Definition plus_total (t : total) (v : value) : total :=
  match plus t v with
  | Return t' => t'
  | Throw _ => t
  end.

(** The two worlds treat record [j] alike. *)
Definition agree_at (w w' : world) (j : nat) : Prop :=
  (forall input, axios_post w j input = axios_post w' j input) /\
  (forall doc, insertOne w j doc = insertOne w' j doc) /\
  new_Date w j = new_Date w' j.

End Outcomes.

(** ** Notions the claims are stated with *)

Section Notions.
Context {N : JsNumber}.

(** Record [i] is announced, its embedding is accepted and its document is
    written. *)
Definition succeeds (w : world) (i : nat) (testcase : value) : Prop :=
  announce testcase = Return () /\
  exists r, embedding w i testcase = Return r /\
            is_Some (insertOne w i (make_doc testcase r (new_Date w i))).

(** A failure of the embedding stage or of the write. *)
Definition failed (o : outcome) : bool :=
  match o with
  | EmbeddingFailed _ | WriteFailed _ => true
  | _ => false
  end.

Definition write_failed (o : outcome) : bool :=
  match o with
  | WriteFailed _ => true
  | _ => false
  end.

(** A cost or token count as a response reports it: absent, or a number that
    is not negative. *)
Definition field_nonneg (v : value) : bool :=
  match v with
  | VUndefined => true
  | VNum n => n_leb n_zero n
  | _ => false
  end.

Definition nonneg_responses (w : world) : Prop :=
  forall i input status data,
    axios_post w i input = Resolved status data ->
    (forall c, get data "cost" = Return c -> field_nonneg c = true) /\
    (forall u t, get data "usage" = Return u ->
                 get_optional u "total_tokens" = Return t ->
                 field_nonneg t = true).

Definition total_nonneg (t : total) : bool :=
  match t with
  | TNum n => n_leb n_zero n
  | TStr _ => false
  end.

Definition total_leb (t t' : total) : bool :=
  match t, t' with
  | TNum a, TNum b => n_leb a b
  | _, _ => false
  end.

Definition totals_nonneg (s : state) : bool :=
  n_leb n_zero (totalCost s) && total_nonneg (totalTokens s).

Definition totals_leb (s s' : state) : bool :=
  n_leb (totalCost s) (totalCost s') && total_leb (totalTokens s) (totalTokens s').

End Notions.

(** ** A scenario: two test cases and the answers of the API *)

Section Scenario.
Context {N : JsNumber}.

(** An object literal. *)
Definition object (properties : list (string * value)) : value :=
  VObj (list_to_map properties).

Definition tc_login : value :=
  object [ ("id", VStr "TC-1"); ("module", VStr "Login");
           ("title", VStr "Valid login");
           ("description", VStr "A registered user signs in");
           ("steps", VArr [VStr "Open the login page"; VStr "Submit the form"]);
           ("expectedResults", VStr "The dashboard is shown") ].

Definition tc_logout : value :=
  object [ ("id", VStr "TC-2"); ("module", VStr "Login");
           ("title", VStr "Logout");
           ("description", VStr "A signed-in user signs out");
           ("steps", VStr "Click logout");
           ("expectedResults", VStr "The login page is shown") ].

(** A record of the input file without a [description]. *)
Definition tc_no_description : value :=
  object [ ("id", VStr "TC-0"); ("title", VStr "Draft") ].

(** The numbers of the scenario: 1/4 for the cost, 42 tokens, a vector of
    two coordinates. *)
Definition quarter : number := n_div n_one (n_of_nat 4).
Definition half : number := n_div n_one (n_of_nat 2).

(** A body the pipeline accepts. *)
Definition accepted_fields : gmap string value :=
  list_to_map
    [ ("status", VNum (n_of_nat 200)); ("message", VStr "ok");
      ("model", VStr "text-embedding-3-small");
      ("data", VArr [object [("embedding", VArr [VNum half; VNum quarter])]]);
      ("cost", VNum quarter);
      ("usage", object [("total_tokens", VNum (n_of_nat 42))]) ].

Definition accepted_body : value := VObj accepted_fields.

(** What [read_response] takes from [accepted_body]. *)
Definition accepted_result : embedding_result :=
  {| vector := VArr [VNum half; VNum quarter];
     cost := quarter;
     tokens := VNum (n_of_nat 42);
     model := VStr "text-embedding-3-small" |}.

(** A 2xx answer whose body reports a failure. *)
Definition refused_body : value :=
  object [ ("status", VNum (n_of_nat 401)); ("message", VStr "Invalid token") ].

Definition tc_reset : value :=
  object [ ("id", VStr "TC-3"); ("module", VStr "Account");
           ("title", VStr "Password reset");
           ("description", VStr "A user asks for a new password");
           ("steps", VStr "Request a reset link");
           ("expectedResults", VStr "A mail is sent") ].

Definition clock (i : nat) : Z := 1700000000000 + Z.of_nat i.

(** The id the driver gives to the document of record [i]. *)
Definition object_id (i : nat) : value := VStr ("65f0c0ffee" ++ pretty i).

(** Every request is answered and accepted, every write succeeds. *)
Definition world_ok : world :=
  {| axios_post := fun _ _ => Resolved (n_of_nat 200) accepted_body;
     insertOne := fun i _ => Some (object_id i);
     new_Date := clock |}.

(** Every request is answered and accepted, every write fails. *)
Definition world_write_fails : world :=
  {| axios_post := fun _ _ => Resolved (n_of_nat 200) accepted_body;
     insertOne := fun _ _ => None;
     new_Date := clock |}.

(** The first request comes back 2xx with a refusal in its body; the later
    ones are as in [world_ok]. *)
Definition world_first_refused : world :=
  {| axios_post := fun i _ =>
       match i with
       | O => Resolved (n_of_nat 200) refused_body
       | S _ => Resolved (n_of_nat 200) accepted_body
       end;
     insertOne := fun i _ => Some (object_id i);
     new_Date := clock |}.

(** A mixed batch: the first request is refused, the second record goes
    through, the write of the third fails. *)
Definition world_mixed : world :=
  {| axios_post := fun i _ =>
       match i with
       | O => Resolved (n_of_nat 200) refused_body
       | S _ => Resolved (n_of_nat 200) accepted_body
       end;
     insertOne := fun i _ =>
       match i with
       | 2 => None
       | _ => Some (object_id i)
       end;
     new_Date := clock |}.

End Scenario.

(** ** Number::toString *)

(** The decimal rendering of a double by Number::toString (ECMAScript
    6.1.6.1.20, radix 10): the digits are those of the integer [s] with the
    fewest digits such that [s * 10^t] rounds to the double, the closest to
    the double when there are several. *)

Section NumberToString.
Local Open Scope Z_scope.

(** The multiple [s * 10^t] of [10^t] that is closest to the double
    [m * 2^e] among those that round to it, if there is one. The double and
    the ends of the interval of the reals that round to it are held as
    integers, in units of [2^(e-2)]: half the gap to the next double is 2
    units, half the gap to the previous one is 2 units as well, or 1 unit
    below a power of two; the ends round to the double when [m] is even. *)
Definition candidate (m : positive) (e t : Z) : option Z :=
  let sh := e - 2 in
  let below :=
    if (Zpos m =? 2 ^ 52) && (SpecFloat.emin prec emax <? e) then 1 else 2 in
  let scale := 2 ^ Z.max sh 0 * 10 ^ Z.max (- t) 0 in
  let unit := 10 ^ Z.max t 0 * 2 ^ Z.max (- sh) 0 in
  let x := 4 * Zpos m * scale in
  let lo := (4 * Zpos m - below) * scale in
  let hi := (4 * Zpos m + 2) * scale in
  let inside v :=
    if Z.even (Zpos m) then (lo <=? v) && (v <=? hi)
    else (lo <? v) && (v <? hi) in
  let s1 := x / unit in
  let s2 := s1 + 1 in
  match (0 <? s1) && inside (s1 * unit), inside (s2 * unit) with
  | true, true =>
      let d1 := x - s1 * unit in
      let d2 := s2 * unit - x in
      Some (if d1 <? d2 then s1
            else if d2 <? d1 then s2
            else if Z.even s1 then s1 else s2)
  | true, false => Some s1
  | false, true => Some s2
  | false, false => None
  end.

(** The largest [t] for which there is such a multiple gives the fewest
    digits. The search goes down from [t], one power of ten a step; the
    exact decimal expansion of the double ends it. *)
Fixpoint shortest (fuel : nat) (m : positive) (e t : Z) : Z * Z :=
  match candidate m e t with
  | Some s => (s, t)
  | None =>
      match fuel with
      | O => if 0 <=? e then (Zpos m * 2 ^ e, 0) else (Zpos m * 5 ^ (- e), e)
      | S fuel => shortest fuel m e (t - 1)
      end
  end.

(** An exponent of ten above the double: [log10 2 < 1234 / 4096], and
    the two steps added cover the numbers below 1, where the bound errs. *)
Definition above (m : positive) (e : Z) : Z :=
  Z.shiftr ((Z.log2 (Zpos m) + e + 2) * 1234) 12 + 2.

(** Steps enough for the search from [above]: a multiple of [10^t] rounds
    to the double as soon as [10^t] is below the gap between two doubles,
    which takes fewer powers of ten than the mantissa has bits. *)
Definition steps (m : positive) : nat := Pos.to_nat (Pos.size m) + 8.

Definition zeros (n : Z) : string :=
  string_of_list_ascii (replicate (Z.to_nat n) "0"%char).

(** Number::toString of a finite double above zero (ECMAScript
    6.1.6.1.20, radix 10), from the digits [s] ([k] of them) and the
    position [n] of the decimal point. *)
Definition finite_to_string (m : positive) (e : Z) : string :=
  let '(s, t) := shortest (steps m) m e (above m e) in
  let digits := pretty s in
  let k := Z.of_nat (String.length digits) in
  let n := k + t in
  if (k <=? n) && (n <=? 21) then digits ++ zeros (n - k)
  else if (0 <? n) && (n <=? 21) then
    substring 0 (Z.to_nat n) digits ++ "." ++
    substring (Z.to_nat n) (Z.to_nat (k - n)) digits
  else if (-6 <? n) && (n <=? 0) then "0." ++ zeros (- n) ++ digits
  else
    let exponent := n - 1 in
    let sign := if exponent <? 0 then "-" else "+" in
    let mantissa :=
      if k =? 1 then digits
      else substring 0 1 digits ++ "." ++ substring 1 (Z.to_nat (k - 1)) digits in
    mantissa ++ "e" ++ sign ++ pretty (Z.abs exponent).

End NumberToString.

(** Number::toString on doubles: [NaN], the zeros (both print as [0]), the
    infinities, and the finite doubles with their sign. *)
Definition double_to_string (x : float) : string :=
  match Prim2SF x with
  | S754_nan => "NaN"
  | S754_zero _ => "0"
  | S754_infinity s => if s then "-Infinity" else "Infinity"
  | S754_finite s m e => (if s then "-" else "") ++ finite_to_string m e
  end.

(** The doubles of a JavaScript engine, printed as JavaScript prints them. *)
Definition ieee : JsNumber := binary64 double_to_string.

(** ** The request of lines 62-74 and the configuration of lines 23-25 *)

Section Request.
Context {N : JsNumber}.

(** [process.env.k]: the string of the variable, [undefined] when it is not
    set. *)
Definition env_var (env : gmap string string) (k : string) : value :=
  from_option VStr VUndefined (env !! k).

(** Lines 23-25. *)
Definition TESTLEAF_API_BASE (env : gmap string string) : value :=
  or_else (env_var env "TESTLEAF_API_BASE") (VStr "https://api.testleaf.ai").

Definition USER_EMAIL (env : gmap string string) : value :=
  env_var env "USER_EMAIL".

Definition AUTH_TOKEN (env : gmap string string) : value :=
  env_var env "AUTH_TOKEN".

(** Line 63, and again line 136. *)
Definition endpoint (env : gmap string string) : completion string :=
  template ""
    [ (mret (TESTLEAF_API_BASE env), "/embedding/text/");
      (mret (USER_EMAIL env), "") ].

(** Line 71: [AUTH_TOKEN && { 'Authorization': `Bearer ${AUTH_TOKEN}` }],
    the right operand being evaluated when the left one is truthy. *)
Definition authorization (env : gmap string string) : completion value :=
  if truthy (AUTH_TOKEN env)
  then text ← template "Bearer " [ (mret (AUTH_TOKEN env), "") ];
       mret (VObj {[ "Authorization" := VStr text ]})
  else mret (AUTH_TOKEN env).

(** The three arguments of [axios.post]. *)
Record request := {
  request_url : string;
  request_data : value;
  request_headers : gmap string value;
}.

(** Lines 62-74: the URL, the body, then the headers, where the spread of
    line 71 comes after [Content-Type]. *)
Definition post_request (env : gmap string string) (input : string)
  : completion request :=
  url ← endpoint env;
  let data :=
    VObj (<["input" := VStr input]>
         (<["model" := VStr "text-embedding-3-small"]> ∅)) in
  extra ← authorization env;
  let headers :=
    own_properties extra ∪ {[ "Content-Type" := VStr "application/json" ]} in
  mret {| request_url := url; request_data := data; request_headers := headers |}.

End Request.

(** ** The whole of [main]: lines 28-34 before the loop, 154-162 after it *)

Section Program.
Context {N : JsNumber}.

(** What [main] meets outside the loop: whether lines 29-31 get their
    connection and collection, what [JSON.parse] makes of the input file
    ([None]: reading or parsing throws), the collaborators of the loop, and
    whether [client.close()] returns. *)
Record outside := {
  connects : bool;
  input_file : option value;
  services : world;
  closes : bool;
}.

(** What reaches the outer [catch]. *)
Inductive fatal :=
 | ConnectionError
 | InputError
 | Uncaught (e : error).

(** How the [try] of [main] ends: with the summary of lines 149-152, or in
    the [catch] of lines 154-159. *)
Inductive ending :=
 | Summary (average : number)
 | Caught (f : fatal).

(** Lines 36 and 47 on the parsed input: the first console line prints
    [testcases.length], and [for ... of] needs an iterable: an array gives
    its elements, a string its characters (here the bytes of the string:
    line 48 fails on each alike), anything else is a TypeError. *)
Definition iterate (testcases : value) : completion (list value) :=
  n ← get testcases "length";
  _ ← to_string n;
  match testcases with
  | VArr l => mret l
  | VStr s =>
      mret ((fun c => VStr (String c EmptyString)) <$> String.list_ascii_of_string s)
  | _ => throw TypeError
  end.

(** Lines 28-162. The third component tells whether the [finally] went
    through: [client.close()] is awaited on every path, and when it throws
    the promise of [main] is rejected. *)
Definition program (o : outside) : ending * state * bool :=
  let '(e, s) :=
    if connects o then
      match input_file o with
      | None => (Caught InputError, initial)
      | Some parsed =>
          match iterate parsed with
          | Throw e => (Caught (Uncaught e), initial)
          | Return testcases =>
              match main (services o) testcases with
              | (Return average, s) => (Summary average, s)
              | (Throw e, s) => (Caught (Uncaught e), s)
              end
          end
      end
    else (Caught ConnectionError, initial) in
  (e, s, closes o).

End Program.

(** ** Reading the console *)

Section Console.
Context {N : JsNumber}.

Definition is_request_of (j : nat) (e : event) : bool :=
  match e with
  | Request i _ => Nat.eqb i j
  | _ => false
  end.

Definition is_inserted_of (j : nat) (e : event) : bool :=
  match e with
  | Inserted i => Nat.eqb i j
  | _ => false
  end.

Definition is_inserted (e : event) : bool :=
  match e with
  | Inserted _ => true
  | _ => false
  end.

(** The number of events of a kind in a console. *)
Definition count (p : event -> bool) (c : list event) : nat :=
  length (List.filter p c).

(** What one turn of the loop can print for record [i], with the number of
    documents it adds: nothing when line 48 throws; a skip when the prompt
    cannot be built; a request and a skip; a request and an insert; or a
    request, an insert and a skip when a line after the write throws. *)
Inductive record_trace (i : nat) : list event -> nat -> Prop :=
 | trace_escaped : record_trace i [] 0
 | trace_no_prompt d : record_trace i [Processing i; Skipping i d] 0
 | trace_skipped input d :
     record_trace i [Processing i; Request i input; Skipping i d] 0
 | trace_inserted input :
     record_trace i [Processing i; Request i input; Inserted i] 1
 | trace_inserted_skipped input d :
     record_trace i [Processing i; Request i input; Inserted i; Skipping i d] 1.

(** The test case is an object with a string [description] and an [id] that
    can be printed: what line 48 needs. *)
Definition well_shaped (testcase : value) : Prop :=
  exists m d s,
    testcase = VObj m /\
    m !! "description" = Some (VStr d) /\
    to_string (default VUndefined (m !! "id")) = Return s.

(** [r] with another vector, cost or tokens. *)
Definition with_vector (v : value) (r : embedding_result) : embedding_result :=
  {| vector := v; cost := cost r; tokens := tokens r; model := model r |}.

Definition with_tokens (t : value) (r : embedding_result) : embedding_result :=
  {| vector := vector r; cost := cost r; tokens := t; model := model r |}.

Definition is_string_total (t : total) : bool :=
  match t with
  | TStr _ => true
  | TNum _ => false
  end.

End Console.

(** ** More of the scenario *)

Section MoreScenario.
Context {N : JsNumber}.

(** No request gets an answer. *)
Definition world_unreachable : world :=
  {| axios_post := fun _ _ => Rejected NoResponse;
     insertOne := fun i _ => Some (object_id i);
     new_Date := clock |}.

(** Every request meets a server error. *)
Definition world_server_error : world :=
  {| axios_post := fun _ _ =>
       Rejected (BadStatus (n_of_nat 500) (VStr "Internal Server Error"));
     insertOne := fun i _ => Some (object_id i);
     new_Date := clock |}.

(** The store hands back an id that cannot be printed. *)
Definition world_odd_id : world :=
  {| axios_post := fun _ _ => Resolved (n_of_nat 200) accepted_body;
     insertOne := fun _ _ => Some (object [("toString", VNum n_one)]);
     new_Date := clock |}.

(** An input file that holds a string, not an array. *)
Definition outside_string : outside :=
  {| connects := true; input_file := Some (VStr "[]");
     services := world_ok; closes := true |}.

(** The prompt of [tc_login], as lines 52-59 lay it out. *)
Definition login_prompt_text : string :=
  nl ++ "          ID: TC-1" ++
  nl ++ "          Module: Login" ++
  nl ++ "          Title: Valid login" ++
  nl ++ "          Description: A registered user signs in" ++
  nl ++ "          Steps: Open the login page,Submit the form" ++
  nl ++ "          Expected Result: The dashboard is shown" ++
  nl ++ "        ".

(** The API accepts the prompt of [tc_login] and answers no other text. *)
Definition world_prompt_only : world :=
  {| axios_post := fun _ input =>
       if String.eqb input login_prompt_text
       then Resolved (n_of_nat 200) accepted_body
       else Rejected NoResponse;
     insertOne := fun i _ => Some (object_id i);
     new_Date := clock |}.

(** The API answers the prompt of [tc_login] with a refusal and accepts
    every other text. *)
Definition world_prompt_refused : world :=
  {| axios_post := fun _ input =>
       if String.eqb input login_prompt_text
       then Rejected NoResponse
       else Resolved (n_of_nat 200) accepted_body;
     insertOne := fun i _ => Some (object_id i);
     new_Date := clock |}.

(** An accepted body that reports neither a cost nor a usage. *)
Definition bare_fields : gmap string value :=
  delete "cost" (delete "usage" accepted_fields).

Definition bare_result : embedding_result :=
  {| vector := VArr [VNum half; VNum quarter];
     cost := n_zero;
     tokens := VNum n_zero;
     model := VStr "text-embedding-3-small" |}.

Definition world_bare : world :=
  {| axios_post := fun _ _ => Resolved (n_of_nat 200) (VObj bare_fields);
     insertOne := fun i _ => Some (object_id i);
     new_Date := clock |}.

End MoreScenario.

(** * Proofs *)

(** Inversion of a sequence of binds that returned. *)
Ltac bind_inv H :=
  repeat match type of H with
  | (?c ≫= _) = Return _ => destruct c eqn:?; simpl in H; [|discriminate]
  end.

(** Runs the reads of [read_response] again from the equations of a run
    that returned. *)
Ltac replay :=
  simpl;
  repeat (match goal with
          | H : ?c = Return _ |- context [?c ≫= _] => rewrite H
          end; simpl);
  try done.

(** ** Facts about expressions *)

Section Facts.
Context {N : JsNumber}.

Lemma plus_defined a b s :
  to_string b = Return s -> exists t, plus a b = Return t.
Proof.
  intros Hs. destruct b as [| |[]| | | |]; try (simpl; eauto; fail);
    unfold plus; rewrite Hs; simpl; eauto.
Qed.

(** An accepted response has had its tokens printed (line 93), so the [+]
    of line 98 cannot throw. *)
Lemma read_response_tokens data r :
  read_response data = Return r -> exists s, to_string (tokens r) = Return s.
Proof.
  unfold read_response. intros H. bind_inv H.
  injection H as <-. simpl. eauto.
Qed.

Lemma embedding_tokens w i tc r :
  embedding w i tc = Return r ->
  forall t, plus t (tokens r) = Return (plus_total t (tokens r)).
Proof.
  unfold embedding. intros H. bind_inv H.
  destruct (axios_post w i _); [|discriminate].
  destruct (read_response_tokens _ _ H) as [s Hs].
  intros t. unfold plus_total. by destruct (plus_defined t _ _ Hs) as [t' ->].
Qed.

(** The status check of line 81 refuses every body whose [status] is not the
    number 200. *)
Lemma read_response_refused data :
  (forall v, get data "status" = Return v -> is_200 v = false) ->
  exists e, read_response data = Throw e.
Proof.
  intros H. unfold read_response.
  destruct (get data "status") as [v|e]; simpl; [|eauto].
  rewrite (H v eq_refl).
  destruct (to_string v); simpl; [|eauto].
  destruct (get data "message") as [m|]; simpl; [|eauto].
  destruct (to_string (or_else m _)); simpl; [|eauto].
  destruct (to_string m); simpl; eauto.
Qed.

(** One turn of the loop, by the outcome of its record. The console is left
    out of the description. *)
Lemma iteration_spec w i tc s :
  match outcome_of w i tc with
  | Escaped e => iteration w i tc s = (Throw e, s)
  | EmbeddingFailed e =>
      exists c, iteration w i tc s =
        (Return (), {| totalCost := totalCost s; totalTokens := totalTokens s;
                       collection := collection s; console := c |})
  | WriteFailed r =>
      exists c, iteration w i tc s =
        (Return (), {| totalCost := n_add (totalCost s) (cost r);
                       totalTokens := plus_total (totalTokens s) (tokens r);
                       collection := collection s; console := c |})
  | Stored r doc =>
      exists c, iteration w i tc s =
        (Return (), {| totalCost := n_add (totalCost s) (cost r);
                       totalTokens := plus_total (totalTokens s) (tokens r);
                       collection := (collection s ++ [doc])%list;
                       console := c |})
  end.
Proof.
  unfold outcome_of, embedding, plus_total.
  cbv [iteration process try_catch request_embedding report_insert mbind
       js_bind mret js_ret eval console_log add_to_totals insert_doc].
  destruct (announce tc) as [[]|e]; [|done].
  destruct (inputText tc) as [input|e]; cbn; [|eauto].
  destruct (axios_post w i input) as [status data|e]; cbn; [|eauto].
  destruct (read_response data) as [r|e] eqn:Hr; cbn; [|eauto].
  destruct (read_response_tokens _ _ Hr) as [st Hst].
  destruct (plus_defined (totalTokens s) _ _ Hst) as [t Ht].
  rewrite Ht.
  destruct (insertOne w i _) as [id|]; cbn; rewrite ?Ht; [|eauto].
  destruct (to_string id); cbn; eauto.
Qed.

Lemma for_of_cons w i tc rest s :
  for_of w i (tc :: rest) s =
  match iteration w i tc s with
  | (Return _, s') => for_of w (S i) rest s'
  | (Throw e, s') => (Throw e, s')
  end.
Proof. reflexivity. Qed.

Lemma for_of_app w pre post : forall i s,
  for_of w i (pre ++ post) s =
  match for_of w i pre s with
  | (Return _, s') => for_of w (i + length pre) post s'
  | (Throw e, s') => (Throw e, s')
  end.
Proof.
  induction pre as [|tc pre IH]; intros i s.
  - simpl. by rewrite Nat.add_0_r.
  - rewrite <- app_comm_cons, !for_of_cons.
    destruct (iteration w i tc s) as [[[]|e] s']; [|done].
    rewrite IH. simpl length. by rewrite Nat.add_succ_r.
Qed.

(** The outcome of a record depends on the world through the answers to
    that record only. *)
Lemma outcome_of_agree w w' j tc :
  agree_at w w' j -> outcome_of w j tc = outcome_of w' j tc.
Proof.
  intros (Hpost & Hins & Hdate). unfold outcome_of, embedding.
  destruct (announce tc); [|done].
  destruct (inputText tc) as [input|]; simpl; [|done].
  rewrite Hpost. destruct (axios_post w' j input); simpl; [|done].
  destruct (read_response data); [|done].
  by rewrite Hdate, Hins.
Qed.

Lemma outcomes_agree w w' tcs : forall i,
  (forall j, i <= j -> agree_at w w' j) ->
  outcomes w i tcs = outcomes w' i tcs.
Proof.
  induction tcs as [|tc tcs IH]; intros i H; [done|].
  simpl. rewrite (outcome_of_agree w w' i tc) by (apply H; lia).
  rewrite (IH (S i)) by (intros j Hj; apply H; lia). done.
Qed.

(** The loop adds the stored documents to the collection and the accepted
    costs and tokens to the totals, in the order of the batch. *)
Lemma for_of_outcomes w tcs : forall i s,
  let s' := (for_of w i tcs s).2 in
  collection s' = (collection s ++ omap stored_doc (outcomes w i tcs))%list /\
  totalCost s' =
    foldl (fun t r => n_add t (cost r)) (totalCost s)
          (omap accepted (outcomes w i tcs)) /\
  totalTokens s' =
    foldl (fun t r => plus_total t (tokens r)) (totalTokens s)
          (omap accepted (outcomes w i tcs)).
Proof.
  induction tcs as [|tc tcs IH]; intros i s.
  - simpl. by rewrite app_nil_r.
  - cbv zeta. rewrite for_of_cons. simpl outcomes.
    pose proof (iteration_spec w i tc s) as Hit.
    destruct (outcome_of w i tc) as [e|e|r|r doc].
    + rewrite Hit. simpl. by rewrite app_nil_r.
    + destruct Hit as [c ->].
      edestruct (IH (S i)) as (H1 & H2 & H3). rewrite H1, H2, H3. done.
    + destruct Hit as [c ->].
      edestruct (IH (S i)) as (H1 & H2 & H3). rewrite H1, H2, H3. done.
    + destruct Hit as [c ->].
      edestruct (IH (S i)) as (H1 & H2 & H3). rewrite H1, H2, H3.
      simpl. by rewrite <- app_assoc.
Qed.

(** Only an object with a string under [description] gets past line 48. *)
Lemma announce_object tc :
  announce tc = Return () ->
  exists m d, tc = VObj m /\ m !! "description" = Some (VStr d).
Proof.
  unfold announce. intros H.
  destruct tc as [| |b|n|s|l|m]; simpl in H; try discriminate.
  all: destruct (to_string _); simpl in H; try discriminate.
  exists m. destruct (m !! "description") as [[]|]; try discriminate. eauto.
Qed.

(** The request of a record carries the prompt of that record. *)
Lemma iteration_console w i tc input s :
  announce tc = Return () ->
  inputText tc = Return input ->
  exists c,
    console (iteration w i tc s).2 =
      (console s ++ [Processing i; Request i input] ++ c)%list.
Proof.
  intros Ha Hi.
  cbv [iteration process try_catch request_embedding report_insert mbind
       js_bind mret js_ret eval console_log add_to_totals insert_doc].
  rewrite Ha, Hi. cbn.
  destruct (axios_post w i input) as [status data|e]; cbn.
  - destruct (read_response data) as [r|e]; cbn.
    + destruct (plus (totalTokens s) (tokens r)); cbn.
      * destruct (insertOne w i _) as [id|]; cbn;
          [destruct (to_string id); cbn|]; rewrite <- !app_assoc; eauto.
      * rewrite <- !app_assoc; eauto.
    + rewrite <- !app_assoc; eauto.
  - rewrite <- !app_assoc; eauto.
Qed.
(** One turn of the loop asks the world three things: the answer of the API
    to the prompt of the record, the answer of the store to its document,
    and the time. *)
Lemma iteration_agree w w' i tc input s :
  inputText tc = Return input ->
  axios_post w' i input = axios_post w i input ->
  (forall doc, insertOne w' i doc = insertOne w i doc) ->
  new_Date w' i = new_Date w i ->
  iteration w' i tc s = iteration w i tc s.
Proof.
  intros Hi Hp Hw Hd.
  cbv [iteration process try_catch request_embedding report_insert mbind
       js_bind mret js_ret eval console_log add_to_totals insert_doc].
  destruct (announce tc) as [[]|e]; [|done].
  rewrite Hi. cbn. rewrite Hp.
  destruct (axios_post w i input) as [status data|e]; cbn; [|done].
  destruct (read_response data) as [r|e]; cbn; [|done].
  destruct (plus (totalTokens s) (tokens r)); cbn; [|done].
  by rewrite Hd, Hw.
Qed.

(** A record that line 48 rejects sends nothing. *)
Lemma iteration_unannounced w i tc e s :
  announce tc = Throw e -> iteration w i tc s = (Throw e, s).
Proof.
  intros Ha. pose proof (iteration_spec w i tc s) as H.
  unfold outcome_of in H. by rewrite Ha in H.
Qed.

(** A prompt that axios rejects. *)
Lemma iteration_rejected w i tc input e s :
  announce tc = Return () ->
  inputText tc = Return input ->
  axios_post w i input = Rejected e ->
  iteration w i tc s =
    (Return (),
     {| totalCost := totalCost s; totalTokens := totalTokens s;
        collection := collection s;
        console :=
          (console s ++
           [Processing i; Request i input;
            Skipping i (diagnose (AxiosError e))])%list |}).
Proof.
  intros Ha Hi Hp.
  cbv [iteration process try_catch request_embedding report_insert mbind
       js_bind mret js_ret eval console_log add_to_totals insert_doc].
  rewrite Ha, Hi. cbn. rewrite Hp. cbn. by rewrite <- !app_assoc.
Qed.

(** The answer to the prompt decides the embedding stage of the record. *)
Lemma embedding_on_prompt w i tc input :
  inputText tc = Return input ->
  embedding w i tc =
    match axios_post w i input with
    | Rejected e => Throw (AxiosError e)
    | Resolved _ data => read_response data
    end.
Proof. intros Hi. unfold embedding. by rewrite Hi. Qed.

(** What an accepted answer to the prompt does to the state. *)
Lemma iteration_accepted w i tc input status data r s :
  announce tc = Return () ->
  inputText tc = Return input ->
  axios_post w i input = Resolved status data ->
  read_response data = Return r ->
  exists s',
    iteration w i tc s = (Return (), s') /\
    totalCost s' = n_add (totalCost s) (cost r) /\
    totalTokens s' = plus_total (totalTokens s) (tokens r) /\
    plus (totalTokens s) (tokens r) = Return (totalTokens s') /\
    collection s' =
      (collection s ++
       match insertOne w i (make_doc tc r (new_Date w i)) with
       | Some _ => [make_doc tc r (new_Date w i)]
       | None => []
       end)%list.
Proof.
  intros Ha Hi Hp Hr.
  assert (He : embedding w i tc = Return r).
  { by rewrite (embedding_on_prompt w i tc input Hi), Hp. }
  pose proof (iteration_spec w i tc s) as H.
  unfold outcome_of in H. rewrite Ha, He in H. simpl in H.
  destruct (insertOne w i _); destruct H as [c ->]; eexists;
    (split; [done|]); simpl; rewrite (embedding_tokens _ _ _ _ He);
    rewrite ?app_nil_r; done.
Qed.

(** What a refused answer to the prompt does to the state. *)
Lemma iteration_refused w i tc input status data e s :
  announce tc = Return () ->
  inputText tc = Return input ->
  axios_post w i input = Resolved status data ->
  read_response data = Throw e ->
  exists s',
    iteration w i tc s = (Return (), s') /\
    totalCost s' = totalCost s /\
    totalTokens s' = totalTokens s /\
    collection s' = collection s.
Proof.
  intros Ha Hi Hp Hr.
  assert (He : embedding w i tc = Throw e).
  { by rewrite (embedding_on_prompt w i tc input Hi), Hp. }
  pose proof (iteration_spec w i tc s) as H.
  unfold outcome_of in H. rewrite Ha, He in H.
  destruct H as [c ->]. eauto.
Qed.

End Facts.

(** ** The claims about one record *)

Section Record.
Context {N : JsNumber}.

(** C1, as amended. When the embedding of a record is accepted and the write
    of its document fails, the cost and the tokens of the record are in the
    totals all the same: lines 97-98 run before [insertOne], and the
    exception of the write undoes nothing. No document is stored and the loop
    goes on. *)
Theorem failed_write_keeps_totals w i tc r s :
  announce tc = Return () ->
  embedding w i tc = Return r ->
  insertOne w i (make_doc tc r (new_Date w i)) = None ->
  exists s',
    iteration w i tc s = (Return (), s') /\
    totalCost s' = n_add (totalCost s) (cost r) /\
    plus (totalTokens s) (tokens r) = Return (totalTokens s') /\
    collection s' = collection s.
Proof.
  intros Ha He Hw. pose proof (iteration_spec w i tc s) as H.
  unfold outcome_of in H. rewrite Ha, He in H. simpl in H. rewrite Hw in H.
  destruct H as [c ->]. eexists. split; [done|]. simpl.
  by rewrite (embedding_tokens _ _ _ _ He).
Qed.

(** C6. A request that resolves (a 2xx status) with a body whose [status] is
    not the number 200 is a failure of the record: the totals and the
    collection stay as they were, and the loop turns to the next record. *)
Theorem refused_body_is_skipped w i tc input status data s rest :
  announce tc = Return () ->
  inputText tc = Return input ->
  axios_post w i input = Resolved status data ->
  (forall v, get data "status" = Return v -> is_200 v = false) ->
  exists s',
    iteration w i tc s = (Return (), s') /\
    totalCost s' = totalCost s /\
    totalTokens s' = totalTokens s /\
    collection s' = collection s /\
    for_of w i (tc :: rest) s = for_of w (S i) rest s'.
Proof.
  intros Ha Hi Hp Hs. destruct (read_response_refused data Hs) as [e He].
  pose proof (iteration_spec w i tc s) as H.
  unfold outcome_of, embedding in H. rewrite Ha, Hi in H. simpl in H.
  rewrite Hp, He in H. destruct H as [c H].
  eexists. rewrite for_of_cons, H. done.
Qed.

(** C7. The prompt is the template of lines 52-59: the six fields of the
    test case, printed, in the order id, module, title, description, steps,
    expected results, each behind its label. This text is what is sent to
    the API: the console shows the request with it, and the turn of the loop
    goes by the answer of the API to this text and to no other: rejected,
    the record is skipped; accepted, its cost and tokens are added; and what
    the API would answer to any other text changes nothing. A record that
    line 48 rejects sends no text at all. *)
Theorem inputText_field_order tc id module title description steps expected :
  get tc "id" ≫= to_string = Return id ->
  get tc "module" ≫= to_string = Return module ->
  get tc "title" ≫= to_string = Return title ->
  get tc "description" ≫= to_string = Return description ->
  get tc "steps" ≫= to_string = Return steps ->
  get tc "expectedResults" ≫= to_string = Return expected ->
  let prompt :=
    nl ++ "          ID: " ++ id ++
    nl ++ "          Module: " ++ module ++
    nl ++ "          Title: " ++ title ++
    nl ++ "          Description: " ++ description ++
    nl ++ "          Steps: " ++ steps ++
    nl ++ "          Expected Result: " ++ expected ++
    nl ++ "        " in
  inputText tc = Return prompt /\
  (forall w i s e,
     announce tc = Throw e -> iteration w i tc s = (Throw e, s)) /\
  forall w i s,
    announce tc = Return () ->
    (exists c,
       console (iteration w i tc s).2 =
         (console s ++ [Processing i; Request i prompt] ++ c)%list) /\
    (forall e,
       axios_post w i prompt = Rejected e ->
       iteration w i tc s =
         (Return (),
          {| totalCost := totalCost s; totalTokens := totalTokens s;
             collection := collection s;
             console :=
               (console s ++
                [Processing i; Request i prompt;
                 Skipping i (diagnose (AxiosError e))])%list |})) /\
    (forall status data r,
       axios_post w i prompt = Resolved status data ->
       read_response data = Return r ->
       totalCost (iteration w i tc s).2 = n_add (totalCost s) (cost r) /\
       totalTokens (iteration w i tc s).2
         = plus_total (totalTokens s) (tokens r)) /\
    (forall w',
       axios_post w' i prompt = axios_post w i prompt ->
       (forall doc, insertOne w' i doc = insertOne w i doc) ->
       new_Date w' i = new_Date w i ->
       iteration w' i tc s = iteration w i tc s).
Proof.
  intros H1 H2 H3 H4 H5 H6 prompt.
  assert (Hp : inputText tc = Return prompt).
  { unfold inputText, template.
    repeat match goal with
    | H : ?c ≫= to_string = Return _ |- context [?c] =>
        destruct c; simpl in H; [|discriminate]; simpl; rewrite H; clear H
    end.
    reflexivity. }
  split; [exact Hp|].
  split; [intros w i s e; apply iteration_unannounced|].
  intros w i s Ha. repeat apply conj.
  - by apply iteration_console.
  - intros e He. by apply iteration_rejected.
  - intros status data r Hpost Hr.
    destruct (iteration_accepted w i tc prompt status data r s Ha Hp Hpost Hr)
      as (s' & -> & Hc & Ht & _). done.
  - intros w' Hpost Hins Hdate. by eapply iteration_agree.
Qed.

Lemma make_doc_frame tc r created :
  (forall k, k <> "embedding" -> k <> "createdAt" -> k <> "embeddingMetadata" ->
     make_doc tc r created !! k = Json <$> own_properties tc !! k) /\
  make_doc tc r created !! "embedding" = Some (Json (vector r)) /\
  make_doc tc r created !! "createdAt" = Some (Date created) /\
  make_doc tc r created !! "embeddingMetadata" = Some (Json (embeddingMetadata r)).
Proof.
  unfold make_doc. repeat split.
  - intros k H1 H2 H3. by rewrite !lookup_insert_ne, lookup_fmap by done.
  - by rewrite lookup_insert_ne, lookup_insert_ne, lookup_insert_eq.
  - by rewrite lookup_insert_ne, lookup_insert_eq.
  - by rewrite lookup_insert_eq.
Qed.

(** C9. The document that is stored for a test case has every field of the
    test case under its name and with its value, but for [embedding],
    [createdAt] and [embeddingMetadata]: these three are what the pipeline
    computed, whatever the test case had there. *)
Theorem stored_document_frame w i tc r doc s :
  outcome_of w i tc = Stored r doc ->
  (exists m, tc = VObj m /\
     forall k, k <> "embedding" -> k <> "createdAt" -> k <> "embeddingMetadata" ->
       doc !! k = Json <$> m !! k) /\
  doc !! "embedding" = Some (Json (vector r)) /\
  doc !! "createdAt" = Some (Date (new_Date w i)) /\
  doc !! "embeddingMetadata" = Some (Json (embeddingMetadata r)) /\
  collection (iteration w i tc s).2 = (collection s ++ [doc])%list.
Proof.
  intros Ho. pose proof (iteration_spec w i tc s) as Hit. rewrite Ho in Hit.
  destruct Hit as [c ->]. unfold outcome_of in Ho.
  destruct (announce tc) as [[]|] eqn:Ha; [|discriminate].
  destruct (embedding w i tc) as [r'|]; [|discriminate]. simpl in Ho.
  destruct (insertOne w i _); [|discriminate]. injection Ho as -> <-.
  destruct (announce_object tc Ha) as (m & d & -> & _).
  destruct (make_doc_frame (VObj m) r (new_Date w i)) as (H & He & Hc & Hm).
  repeat split; eauto.
Qed.

End Record.

Section Defaults.
Context {N : JsNumber}.

Lemma get_delete_ne m k k' :
  k <> k' -> get (VObj (delete k m)) k' = get (VObj m) k'.
Proof. intros H. simpl. by rewrite lookup_delete_ne. Qed.

Lemma get_insert_ne m k v k' :
  k <> k' -> get (VObj (<[k := v]> m)) k' = get (VObj m) k'.
Proof. intros H. simpl. by rewrite lookup_insert_ne. Qed.

(** Taking the cost, the usage or the token count out of an accepted body
    leaves it accepted, with a 0 in the place. *)
Lemma read_response_without m r :
  read_response (VObj m) = Return r ->
  read_response (VObj (delete "cost" m)) =
    Return {| vector := vector r; cost := n_zero;
              tokens := tokens r; model := model r |} /\
  read_response (VObj (delete "usage" m)) =
    Return {| vector := vector r; cost := cost r;
              tokens := VNum n_zero; model := model r |} /\
  forall u, m !! "usage" = Some (VObj u) ->
    read_response (VObj (<["usage" := VObj (delete "total_tokens" u)]> m)) =
      Return {| vector := vector r; cost := cost r;
                tokens := VNum n_zero; model := model r |}.
Proof.
  intros Hr. pose proof Hr as H. unfold read_response in H. simpl get in H.
  bind_inv H. injection H as <-. simpl.
  repeat match goal with
  | Hm : mret _ = Return _ |- _ => inversion Hm; subst; clear Hm
  end.
  assert (Hzero : to_fixed (or_else VUndefined (VNum n_zero)) = Return n_zero)
    by done.
  assert (Hprint : to_string (or_else VUndefined (VNum n_zero))
                   = Return (n_to_string n_zero)) by done.
  repeat apply conj.
  - unfold read_response. simpl get.
    rewrite lookup_delete_eq, !lookup_delete_ne by done. replay.
  - unfold read_response. simpl get.
    rewrite lookup_delete_eq, !lookup_delete_ne by done. replay.
  - intros u Hu. unfold read_response. simpl get.
    rewrite lookup_insert_eq, !lookup_insert_ne by done. simpl.
    rewrite lookup_delete_eq. replay.
Qed.

(** C8. A response that is accepted though it lacks the cost or the token
    count costs the record nothing but the amount: with no [cost] in the
    body the cost is 0, with no [usage] or no [total_tokens] in it the
    tokens are 0; the turn of the loop completes, adds exactly this cost and
    these tokens to the totals, and the document it hands to the store, which
    is in the collection when the write succeeds, carries them in its
    metadata. Taking the [cost], the [usage] or the [total_tokens] out of an
    accepted body never makes it refused. *)
Theorem absent_cost_and_tokens_are_zero w i tc input status m r s :
  announce tc = Return () ->
  inputText tc = Return input ->
  axios_post w i input = Resolved status (VObj m) ->
  read_response (VObj m) = Return r ->
  let doc := make_doc tc r (new_Date w i) in
  ((m !! "cost" = None -> cost r = n_zero) /\
   (m !! "usage" = None -> tokens r = VNum n_zero) /\
   (forall u, m !! "usage" = Some (VObj u) -> u !! "total_tokens" = None ->
      tokens r = VNum n_zero)) /\
  (exists s',
     iteration w i tc s = (Return (), s') /\
     totalCost s' = n_add (totalCost s) (cost r) /\
     plus (totalTokens s) (tokens r) = Return (totalTokens s') /\
     (m !! "cost" = None -> totalCost s' = n_add (totalCost s) n_zero) /\
     (m !! "usage" = None ->
      plus (totalTokens s) (VNum n_zero) = Return (totalTokens s')) /\
     (forall u, m !! "usage" = Some (VObj u) -> u !! "total_tokens" = None ->
      plus (totalTokens s) (VNum n_zero) = Return (totalTokens s')) /\
     (forall id, insertOne w i doc = Some id ->
        collection s' = (collection s ++ [doc])%list)) /\
  (exists metadata,
     doc !! "embeddingMetadata" = Some (Json metadata) /\
     get metadata "cost" = Return (VNum (cost r)) /\
     get metadata "tokens" = Return (tokens r) /\
     (m !! "cost" = None -> get metadata "cost" = Return (VNum n_zero)) /\
     (m !! "usage" = None -> get metadata "tokens" = Return (VNum n_zero)) /\
     (forall u, m !! "usage" = Some (VObj u) -> u !! "total_tokens" = None ->
      get metadata "tokens" = Return (VNum n_zero))) /\
  (read_response (VObj (delete "cost" m)) =
     Return {| vector := vector r; cost := n_zero;
               tokens := tokens r; model := model r |} /\
   read_response (VObj (delete "usage" m)) =
     Return {| vector := vector r; cost := cost r;
               tokens := VNum n_zero; model := model r |} /\
   forall u, m !! "usage" = Some (VObj u) ->
     read_response (VObj (<["usage" := VObj (delete "total_tokens" u)]> m)) =
       Return {| vector := vector r; cost := cost r;
                 tokens := VNum n_zero; model := model r |}).
Proof.
  intros Ha Hi Hpost Hr doc.
  assert (Hdefaults :
    (m !! "cost" = None -> cost r = n_zero) /\
    (m !! "usage" = None -> tokens r = VNum n_zero) /\
    (forall u, m !! "usage" = Some (VObj u) -> u !! "total_tokens" = None ->
       tokens r = VNum n_zero)).
  { pose proof Hr as H. unfold read_response in H. simpl get in H.
    bind_inv H. injection H as <-. simpl.
    repeat match goal with
    | Hm : mret _ = Return _ |- _ => inversion Hm; subst; clear Hm
    end.
    repeat apply conj.
    - intros Hc. rewrite Hc in Heqc7. by inversion Heqc7.
    - intros Hu. rewrite Hu in Heqc5. by inversion Heqc5.
    - intros u Hu Ht. rewrite Hu in Heqc5. unfold get_optional in Heqc5.
      simpl in Heqc5. rewrite Ht in Heqc5. by inversion Heqc5. }
  destruct Hdefaults as (Hcost & Husage & Htokens).
  split; [done|]. split; [|split].
  - destruct (iteration_accepted w i tc input status (VObj m) r s Ha Hi Hpost Hr)
      as (s' & Hit & Hc & _ & Hp & Hcol).
    exists s'. repeat split; try done.
    + intros Hm. by rewrite Hc, (Hcost Hm).
    + intros Hm. by rewrite <- (Husage Hm).
    + intros u Hu Ht. by rewrite <- (Htokens u Hu Ht).
    + intros id Hid. fold doc in Hcol. by rewrite Hcol, Hid.
  - exists (embeddingMetadata r). subst doc. unfold make_doc.
    rewrite lookup_insert_eq. split; [done|].
    assert (Hmc : get (embeddingMetadata r) "cost" = Return (VNum (cost r))).
    { simpl. by rewrite lookup_insert_ne, lookup_insert_eq. }
    assert (Hmt : get (embeddingMetadata r) "tokens" = Return (tokens r)).
    { simpl. by rewrite lookup_insert_ne, lookup_insert_ne, lookup_insert_eq. }
    repeat split; try done.
    + intros Hm. by rewrite Hmc, (Hcost Hm).
    + intros Hm. by rewrite Hmt, (Husage Hm).
    + intros u Hu Ht. by rewrite Hmt, (Htokens u Hu Ht).
  - apply (read_response_without m r Hr).
Qed.

End Defaults.

(** ** The claims about the whole loop *)

Section Loop.
Context {N : JsNumber}.

Lemma main_state w tcs : (main w tcs).2 = (for_of w 0 tcs initial).2.
Proof.
  unfold main. cbv [mbind js_bind average].
  by destruct (for_of w 0 tcs initial) as [[[]|e] s].
Qed.

(** An error of line 48 leaves the loop with the state as it was: nothing
    is printed, requested or stored for the record or for those after it. *)
Lemma announce_throw_escapes w i tc rest s e :
  announce tc = Throw e -> for_of w i (tc :: rest) s = (Throw e, s).
Proof.
  intros Ha. rewrite for_of_cons.
  pose proof (iteration_spec w i tc s) as Hit.
  unfold outcome_of in Hit. rewrite Ha in Hit. by rewrite Hit.
Qed.

(** Every other error is caught by the [catch] of its record: when line 48
    passes for every record, the loop runs to its end. *)
Lemma for_of_completes w tcs : forall i s,
  Forall (fun tc => announce tc = Return ()) tcs ->
  exists s', for_of w i tcs s = (Return (), s').
Proof.
  induction tcs as [|tc tcs IH]; intros i s Hall; [by exists s|].
  inversion Hall as [|? ? Ha Hrest]; subst. rewrite for_of_cons.
  pose proof (iteration_spec w i tc s) as Hit.
  unfold outcome_of in Hit. rewrite Ha in Hit.
  destruct (embedding w i tc); simpl in Hit;
    [destruct (insertOne w i _)|]; destruct Hit as [c ->]; by apply IH.
Qed.

Lemma outcome_of_succeeds w i tc :
  succeeds w i tc ->
  exists r, embedding w i tc = Return r /\
            outcome_of w i tc = Stored r (make_doc tc r (new_Date w i)).
Proof.
  intros (Ha & r & He & id & Hw). exists r. split; [done|].
  unfold outcome_of. rewrite Ha, He. simpl. by rewrite Hw.
Qed.

Lemma for_of_all_succeed w tcs : forall i s,
  (forall j tc, tcs !! j = Some tc -> succeeds w (i + j) tc) ->
  exists s' docs,
    for_of w i tcs s = (Return (), s') /\
    totalCost s' =
      foldl (fun t r => n_add t (cost r)) (totalCost s)
            (omap accepted (outcomes w i tcs)) /\
    collection s' = (collection s ++ docs)%list /\
    length docs = length tcs /\
    forall j tc, tcs !! j = Some tc ->
      exists r, embedding w (i + j) tc = Return r /\
                docs !! j = Some (make_doc tc r (new_Date w (i + j))).
Proof.
  induction tcs as [|tc tcs IH]; intros i s H.
  - exists s, []. simpl. rewrite app_nil_r. repeat split; done.
  - destruct (outcome_of_succeeds w i tc) as (r & He & Ho).
    { rewrite <- (Nat.add_0_r i). by apply H. }
    pose proof (iteration_spec w i tc s) as Hit. rewrite Ho in Hit.
    destruct Hit as [c Hit].
    edestruct (IH (S i)) as (s' & docs & Hfor & Hcost & Hcol & Hlen & Hdocs).
    { intros j tc' Hj. rewrite Nat.add_succ_l, <- Nat.add_succ_r. by apply H. }
    exists s', (make_doc tc r (new_Date w i) :: docs).
    rewrite for_of_cons, Hit. split; [exact Hfor|].
    simpl outcomes. rewrite Ho. simpl. split; [exact Hcost|].
    split; [by rewrite Hcol; simpl; rewrite <- app_assoc|].
    split; [by rewrite Hlen|].
    intros [|j] tc' Hj; simpl in Hj.
    + injection Hj as <-. rewrite Nat.add_0_r. eauto.
    + rewrite Nat.add_succ_r, <- Nat.add_succ_l. by apply Hdocs.
Qed.

(** When every record of a batch of N records, N not 0, gets past line 48
    and is embedded and written, the run completes, the collection has
    gained N documents, the document at place [i] being the one of record
    [i], and the average is the total cost over N. *)
Lemma all_succeed_stores_every_record w tcs :
  tcs <> [] ->
  (forall i tc, tcs !! i = Some tc -> succeeds w i tc) ->
  exists avg s,
    main w tcs = (Return avg, s) /\
    length (collection s) = length tcs /\
    (forall i tc, tcs !! i = Some tc ->
       exists r, embedding w i tc = Return r /\
                 collection s !! i = Some (make_doc tc r (new_Date w i))) /\
    avg = n_div (totalCost s) (n_of_nat (length tcs)).
Proof.
  intros _ H.
  destruct (for_of_all_succeed w tcs 0 initial H)
    as (s & docs & Hfor & _ & Hcol & Hlen & Hdocs).
  exists (n_div (totalCost s) (n_of_nat (length tcs))), s.
  unfold main. cbv [mbind js_bind average]. rewrite Hfor.
  simpl in Hcol. rewrite Hcol. repeat split; [done|].
  intros i tc Hi. by apply (Hdocs i tc).
Qed.

(** C5, as amended. A record whose embedding or write fails stores nothing
    and the loop turns to the next record. The records after it store the
    same documents and add the same costs and tokens as in any run in which
    they get the same answers, the run in which record [i] succeeds among
    them. The collection gains one document for every record that passed the
    embedding stage and whose write succeeded: as many as passed the
    embedding stage when no write fails. *)
Theorem failure_isolation w w' (pre : list value) tc (post : list value) :
  let i := length pre in
  failed (outcome_of w i tc) = true ->
  (forall j, i < j -> agree_at w w' j) ->
  (forall s, exists s',
     iteration w i tc s = (Return (), s') /\
     collection s' = collection s /\
     for_of w i (tc :: post) s = for_of w (S i) post s') /\
  (forall s s', exists docs rs,
     let f := (for_of w (S i) post s).2 in
     let f' := (for_of w' (S i) post s').2 in
     collection f = (collection s ++ docs)%list /\
     collection f' = (collection s' ++ docs)%list /\
     totalCost f = foldl (fun t r => n_add t (cost r)) (totalCost s) rs /\
     totalCost f' = foldl (fun t r => n_add t (cost r)) (totalCost s') rs /\
     totalTokens f = foldl (fun t r => plus_total t (tokens r)) (totalTokens s) rs /\
     totalTokens f' = foldl (fun t r => plus_total t (tokens r)) (totalTokens s') rs) /\
  (forall tcs,
     length (collection (main w tcs).2) =
       length (List.filter is_stored (outcomes w 0 tcs)) /\
     (List.forallb (fun o => negb (write_failed o)) (outcomes w 0 tcs) = true ->
      length (collection (main w tcs).2) =
        length (List.filter is_accepted (outcomes w 0 tcs)))).
Proof.
  intros i Hfail Hagree. repeat apply conj.
  - intros s. pose proof (iteration_spec w i tc s) as Hit.
    destruct (outcome_of w i tc); try discriminate;
      destruct Hit as [c Hit]; eexists; rewrite for_of_cons, Hit; done.
  - intros s s'.
    exists (omap stored_doc (outcomes w (S i) post)),
           (omap accepted (outcomes w (S i) post)).
    destruct (for_of_outcomes w post (S i) s) as (H1 & H2 & H3).
    destruct (for_of_outcomes w' post (S i) s') as (H1' & H2' & H3').
    rewrite <- (outcomes_agree w w' post (S i)) in H1', H2', H3'
      by (intros j Hj; apply Hagree; lia).
    intros f f'. repeat split; assumption.
  - intros tcs. rewrite main_state.
    destruct (for_of_outcomes w tcs 0 initial) as (H1 & _). rewrite H1.
    simpl. clear. split; [|intros Hw];
      induction (outcomes w 0 tcs) as [|[] os IH]; simpl in *; auto;
      discriminate.
Qed.

End Loop.

(** ** The totals never go down *)

Section Monotone.
Context {N : JsNumber} {L : NumberOrder N}.

Lemma or_else_zero_nonneg v n :
  field_nonneg v = true ->
  or_else v (VNum n_zero) = VNum n ->
  n_leb n_zero n = true.
Proof.
  unfold or_else. destruct v; try discriminate; simpl.
  - intros _ [= <-]. apply n_leb_zero.
  - intros Hn. destruct (_ && _); intros [= <-]; [done|apply n_leb_zero].
Qed.

Lemma or_else_zero_number v :
  field_nonneg v = true -> exists n, or_else v (VNum n_zero) = VNum n.
Proof.
  unfold or_else. destruct v; try discriminate; simpl; eauto.
  destruct (_ && _); eauto.
Qed.

(** What an accepted response adds is not negative when the responses
    report no negative amount. *)
Lemma accepted_nonneg w i tc r :
  nonneg_responses w ->
  embedding w i tc = Return r ->
  n_leb n_zero (cost r) = true /\
  exists t, tokens r = VNum t /\ n_leb n_zero t = true.
Proof.
  intros Hw. unfold embedding.
  destruct (inputText tc) as [input|]; simpl; [|discriminate].
  destruct (axios_post w i input) as [status data|] eqn:Hp; [|discriminate].
  destruct (Hw _ _ _ _ Hp) as [Hcost Htok].
  unfold read_response. intros H. bind_inv H.
  injection H as <-. simpl. split.
  - destruct (or_else_zero_number _ (Hcost _ eq_refl)) as [n Hn].
    match goal with
    | H : to_fixed _ = Return _ |- _ => rewrite Hn in H; injection H as <-
    end.
    eapply or_else_zero_nonneg; [by apply Hcost|done].
  - destruct (or_else_zero_number _ (Htok _ _ eq_refl ltac:(eassumption))) as [n Hn].
    exists n. split; [done|].
    eapply or_else_zero_nonneg; [by eapply Htok|done].
Qed.

Lemma totals_leb_refl s : totals_nonneg s = true -> totals_leb s s = true.
Proof.
  unfold totals_nonneg, totals_leb. intros [H1 H2]%andb_true_iff.
  destruct (totalTokens s); [|done]. simpl in *.
  by rewrite !n_leb_refl.
Qed.

Lemma totals_leb_trans s1 s2 s3 :
  totals_leb s1 s2 = true -> totals_leb s2 s3 = true -> totals_leb s1 s3 = true.
Proof.
  unfold totals_leb. intros [H1 H2]%andb_true_iff [H3 H4]%andb_true_iff.
  rewrite (n_leb_trans _ _ _ H1 H3). simpl.
  destruct (totalTokens s1), (totalTokens s2), (totalTokens s3); try done.
  simpl in *. eauto using n_leb_trans.
Qed.

(** One turn of the loop: the totals stay, or the cost and the tokens of the
    accepted response of this record are added, once. *)
Lemma iteration_totals w i tc s :
  let s' := (iteration w i tc s).2 in
  (totalCost s' = totalCost s /\ totalTokens s' = totalTokens s) \/
  (exists r, embedding w i tc = Return r /\
             totalCost s' = n_add (totalCost s) (cost r) /\
             totalTokens s' = plus_total (totalTokens s) (tokens r)).
Proof.
  pose proof (iteration_spec w i tc s) as H. unfold outcome_of in H.
  destruct (announce tc); [|rewrite H; by left].
  destruct (embedding w i tc) as [r|]; simpl in H.
  - right. exists r. split; [done|].
    destruct (insertOne w i _); destruct H as [c ->]; done.
  - left. by destruct H as [c ->].
Qed.

Lemma iteration_monotone w i tc s :
  nonneg_responses w ->
  totals_nonneg s = true ->
  totals_nonneg (iteration w i tc s).2 = true /\
  totals_leb s (iteration w i tc s).2 = true.
Proof.
  intros Hw Hs. pose proof (totals_leb_refl s Hs) as Hrefl.
  destruct (iteration_totals w i tc s) as [[H1 H2]|(r & He & H1 & H2)];
    unfold totals_nonneg, totals_leb in *; rewrite H1, H2; [done|].
  destruct (accepted_nonneg w i tc r Hw He) as (Hc & t & -> & Ht).
  apply andb_true_iff in Hs as [Hs1 Hs2].
  destruct (totalTokens s) as [n|]; [|done]. simpl in *.
  pose proof (n_add_nonneg _ _ Hs1 Hc) as Hcost.
  pose proof (n_add_nonneg _ _ Hs2 Ht) as Htokens.
  rewrite (n_leb_trans _ _ _ Hs1), (n_leb_trans _ _ _ Hs2) by done.
  by rewrite Hcost, Htokens.
Qed.

Lemma for_of_monotone w tcs : forall i s,
  nonneg_responses w ->
  totals_nonneg s = true ->
  totals_nonneg (for_of w i tcs s).2 = true /\
  totals_leb s (for_of w i tcs s).2 = true.
Proof.
  induction tcs as [|tc tcs IH]; intros i s Hw Hs.
  - simpl. split; [done|]. by apply totals_leb_refl.
  - rewrite for_of_cons.
    destruct (iteration_monotone w i tc s Hw Hs) as [Hn Hl].
    destruct (iteration w i tc s) as [[[]|e] s1]; [|done].
    destruct (IH (S i) s1 Hw Hn) as [Hn' Hl'].
    split; [done|]. by eapply totals_leb_trans.
Qed.

(** The totals over the batch, for numbers that satisfy the order laws. *)
Lemma totals_monotone w pre post :
  nonneg_responses w ->
  let s1 := (for_of w 0 pre initial).2 in
  let s2 := (for_of w 0 (pre ++ post) initial).2 in
  totalCost initial = n_zero /\
  totalTokens initial = TNum n_zero /\
  totals_nonneg s1 = true /\
  totals_nonneg s2 = true /\
  totals_leb s1 s2 = true /\
  (forall i tc s,
     let s' := (iteration w i tc s).2 in
     (totalCost s' = totalCost s /\ totalTokens s' = totalTokens s) \/
     (exists r, embedding w i tc = Return r /\
                totalCost s' = n_add (totalCost s) (cost r) /\
                totalTokens s' = plus_total (totalTokens s) (tokens r))).
Proof.
  intros Hw s1 s2.
  assert (H0 : totals_nonneg initial = true).
  { unfold totals_nonneg. simpl. by rewrite n_leb_zero. }
  destruct (for_of_monotone w pre 0 initial Hw H0) as [Hn1 _].
  destruct (for_of_monotone w (pre ++ post) 0 initial Hw H0) as [Hn2 _].
  repeat split; try done.
  - subst s1 s2. rewrite for_of_app.
    destruct (for_of w 0 pre initial) as [[[]|e] s] eqn:Hpre; simpl in *.
    + by apply for_of_monotone.
    + by apply totals_leb_refl.
  - intros i tc s. apply iteration_totals.
Qed.

End Monotone.

(** ** The order laws on IEEE 754 doubles *)

(** The comparison and the sum of two doubles are those of the
    specification of binary64 ([SFleb] and [SFadd] on [Prim2SF]); the laws
    are proved there, on mantissas and exponents. *)

(** Powers of two as atoms, for [lia]. *)
Ltac pow_atoms :=
  repeat match goal with
  | |- context [Z.pow 2 ?k] =>
      let x := fresh "p" in set (x := Z.pow 2 k) in *; clearbody x
  | H : context [Z.pow 2 ?k] |- _ =>
      let x := fresh "p" in set (x := Z.pow 2 k) in *; clearbody x
  end.

Section Binary64.
Local Open Scope Z_scope.

Lemma digits2_pos_bounds m :
  2 ^ (Zpos (digits2_pos m) - 1) <= Zpos m < 2 ^ Zpos (digits2_pos m).
Proof.
  induction m as [m IH|m IH|]; simpl digits2_pos.
  - rewrite Pos2Z.inj_succ, (Pos2Z.inj_xI m).
    replace (Z.succ (Zpos (digits2_pos m)) - 1) with (Z.succ (Zpos (digits2_pos m) - 1)) by lia.
    rewrite !Z.pow_succ_r by lia. pow_atoms. lia.
  - rewrite Pos2Z.inj_succ, (Pos2Z.inj_xO m).
    replace (Z.succ (Zpos (digits2_pos m)) - 1) with (Z.succ (Zpos (digits2_pos m) - 1)) by lia.
    rewrite !Z.pow_succ_r by lia. pow_atoms. lia.
  - simpl. lia.
Qed.

Lemma digits2_pos_unique m k :
  2 ^ (k - 1) <= Zpos m < 2 ^ k -> Zpos (digits2_pos m) = k.
Proof.
  intros [Hl Hu]. pose proof (digits2_pos_bounds m) as [Hl' Hu'].
  destruct (Z.lt_trichotomy (Zpos (digits2_pos m)) k) as [H|[H|H]]; [|done|].
  - assert (2 ^ Zpos (digits2_pos m) <= 2 ^ (k - 1)) by (apply Z.pow_le_mono_r; lia).
    pow_atoms. lia.
  - assert (0 <= k \/ k < 0) as [Hk|Hk] by lia.
    + assert (2 ^ k <= 2 ^ (Zpos (digits2_pos m) - 1)) by (apply Z.pow_le_mono_r; lia).
      pow_atoms. lia.
    + rewrite (Z.pow_neg_r 2 k) in Hu by lia. lia.
Qed.

Lemma digits2_pos_shift m M k :
  0 <= k -> Zpos m * 2 ^ k <= Zpos M ->
  Zpos (digits2_pos m) + k <= Zpos (digits2_pos M).
Proof.
  intros Hk HM. pose proof (digits2_pos_bounds m) as [Hm _].
  pose proof (digits2_pos_bounds M) as [_ Hu].
  destruct (Z.le_gt_cases (Zpos (digits2_pos m) + k) (Zpos (digits2_pos M))) as [H|H]; [done|].
  assert (H0 : 2 ^ Zpos (digits2_pos M) <= 2 ^ (Zpos (digits2_pos m) - 1 + k))
    by (apply Z.pow_le_mono_r; lia).
  rewrite Z.pow_add_r in H0 by lia.
  assert (0 < 2 ^ k) by (apply Z.pow_pos_nonneg; lia).
  pow_atoms. nia.
Qed.

Lemma iter_xO m d : Zpos (Pos.iter xO m d) = Zpos m * 2 ^ Zpos d.
Proof.
  induction d as [|d IH] using Pos.peano_ind.
  - simpl. lia.
  - rewrite Pos.iter_succ, (Pos2Z.inj_xO (Pos.iter xO m d)), IH, Pos2Z.inj_succ, Z.pow_succ_r by lia.
    pow_atoms. lia.
Qed.

Lemma shl_align_spec mx ex ez :
  ez <= ex ->
  Zpos (shl_align mx ex ez).1 = Zpos mx * 2 ^ (ex - ez).
Proof.
  intros H. unfold shl_align.
  destruct (ez - ex) as [|d|d] eqn:Hd; simpl; try lia.
  - replace (ex - ez) with 0 by lia. simpl. lia.
  - rewrite iter_xO. f_equal. f_equal. lia.
Qed.

Lemma shr_1_m mrs : 0 <= shr_m mrs -> shr_m (shr_1 mrs) = shr_m mrs / 2.
Proof.
  destruct mrs as [m r s]. simpl. intros Hm. rewrite <- Z.div2_div.
  destruct m as [|[p|p|]|p]; try done; lia.
Qed.

Lemma shr_1_nonneg mrs : 0 <= shr_m mrs -> 0 <= shr_m (shr_1 mrs).
Proof.
  intros H. rewrite shr_1_m by done. apply Z.div_pos; lia.
Qed.

Lemma iter_shr_1_m p : forall mrs,
  0 <= shr_m mrs ->
  0 <= shr_m (SpecFloat.iter_pos shr_1 p mrs) /\
  shr_m (SpecFloat.iter_pos shr_1 p mrs) = shr_m mrs / 2 ^ Zpos p.
Proof.
  assert (Hpos : forall k, 0 < 2 ^ Zpos k) by (intros; apply Z.pow_pos_nonneg; lia).
  induction p as [p IH|p IH|]; intros mrs Hm; simpl SpecFloat.iter_pos.
  - pose proof (shr_1_nonneg _ Hm) as H1.
    destruct (IH _ H1) as [H2 E2]. destruct (IH _ H2) as [H3 E3].
    split; [done|]. rewrite E3, E2, shr_1_m by done.
    rewrite !Z.div_div by (try apply Hpos; lia).
    f_equal. rewrite (Pos2Z.inj_xI p).
    replace (2 * Zpos p + 1) with (Z.succ (Zpos p + Zpos p)) by lia.
    rewrite Z.pow_succ_r, Z.pow_add_r by lia. lia.
  - destruct (IH _ Hm) as [H2 E2]. destruct (IH _ H2) as [H3 E3].
    split; [done|]. rewrite E3, E2.
    rewrite !Z.div_div by (try apply Hpos; lia).
    f_equal. rewrite (Pos2Z.inj_xO p).
    replace (2 * Zpos p) with (Zpos p + Zpos p) by lia.
    rewrite Z.pow_add_r by lia. lia.
  - split; [by apply shr_1_nonneg|by rewrite shr_1_m].
Qed.

Lemma shr_spec mrs e n :
  0 <= shr_m mrs -> 0 <= n ->
  (shr mrs e n).2 = e + n /\ shr_m (shr mrs e n).1 = shr_m mrs / 2 ^ n.
Proof.
  intros Hm Hn. destruct n as [|p|p]; simpl; [|..|lia].
  - split; [lia|]. by rewrite Z.div_1_r.
  - split; [done|]. by apply iter_shr_1_m.
Qed.

Lemma round_nearest_even_bounds m l :
  m <= round_nearest_even m l <= m + 1.
Proof.
  destruct l as [|[]]; simpl; try lia. destruct (Z.even m); lia.
Qed.


Lemma shr_nonpos mrs e n : n <= 0 -> shr mrs e n = (mrs, e).
Proof. destruct n; simpl; [done|lia|done]. Qed.

Lemma SFleb_finite mx ex m e :
  ex < e \/ (ex = e /\ Zpos mx <= Zpos m) ->
  SFleb (S754_finite false mx ex) (S754_finite false m e) = true.
Proof.
  intros H. unfold SFleb, SFcompare.
  destruct (Z.compare_spec ex e); [|done|lia].
  change (Pos.compare_cont Eq mx m) with (Pos.compare mx m).
  destruct (Pos.compare_spec mx m); [done..|lia].
Qed.

(** Rounding to nearest even never goes below a double that the exact
    value is not below: [mx * 2^ex] is a double, [M * 2^e] with [e <= ex]
    is at least as large, and the rounded [M * 2^e] is at least [mx * 2^ex]
    (or is the positive infinity, on overflow). *)
Lemma binary_round_aux_lower mx ex M e :
  canonical_mantissa prec emax mx ex = true ->
  emin <= e <= ex ->
  Zpos mx * 2 ^ (ex - e) <= Zpos M ->
  SFleb (S754_finite false mx ex)
        (binary_round_aux prec emax false (Zpos M) e loc_Exact) = true.
Proof.
  intros Hc [He1 He2] HM.
  unfold canonical_mantissa in Hc. apply Z.eqb_eq in Hc.
  pose proof (digits2_pos_shift mx M (ex - e) ltac:(lia) HM) as Hd.
  pose proof (digits2_pos_bounds M) as HD.
  unfold binary_round_aux, shr_fexp. simpl Zdigits2.
  set (D := Zpos (digits2_pos M)) in *.
  set (E := fexp prec emax (D + e)).
  assert (HE : ex <= E /\ ((E = e /\ D <= 53) \/ (E - e = D - 53 /\ 0 <= D - 53))).
  { unfold E. rewrite <- Hc. revert He1 He2 Hd Hc.
    unfold fexp, SpecFloat.emin, prec, emax. lia. }
  destruct HE as [HE Hn].
  destruct (shr_spec (shr_record_of_loc (Zpos M) loc_Exact) e (E - e))
    as [He' Hm1]; [simpl; lia|lia|].
  destruct (shr (shr_record_of_loc (Zpos M) loc_Exact) e (E - e)) as [mrs' e'].
  simpl in He', Hm1. subst e'. replace (e + (E - e)) with E by lia.
  set (m1 := shr_m mrs') in *.
  assert (Hpos : 0 < 2 ^ (E - e)) by (apply Z.pow_pos_nonneg; lia).
  assert (Hm1b : 1 <= m1 < 2 ^ 53).
  { rewrite Hm1. destruct Hn as [[-> HD53]|[-> HD53]].
    - replace (e - e) with 0 by lia. rewrite Z.div_1_r.
      assert (2 ^ D <= 2 ^ 53) by (apply Z.pow_le_mono_r; lia). lia.
    - assert (H52 : 2 ^ (D - 1) = 2 ^ (D - 53) * 2 ^ 52).
      { rewrite <- Z.pow_add_r by lia. f_equal. lia. }
      assert (H53 : 2 ^ D = 2 ^ (D - 53) * 2 ^ 53).
      { rewrite <- Z.pow_add_r by lia. f_equal. lia. }
      assert (0 < 2 ^ (D - 53)) by (apply Z.pow_pos_nonneg; lia).
      split.
      + apply Z.le_trans with (2 ^ 52); [done|].
        apply Z.div_le_lower_bound; [done|]. lia.
      + apply Z.div_lt_upper_bound; [done|]. lia. }
  assert (Hmx : E = ex -> Zpos mx <= m1).
  { intros HEx. rewrite Hm1, HEx. apply Z.div_le_lower_bound.
    - apply Z.pow_pos_nonneg; lia.
    - lia. }
  pose proof (round_nearest_even_bounds m1 (loc_of_shr_record mrs')) as Hm2.
  destruct (round_nearest_even m1 (loc_of_shr_record mrs')) as [|q|q]; [lia| |lia].
  assert (HEmin : SpecFloat.emin prec emax <= E) by lia.
  destruct (Z.eq_dec (Zpos q) 9007199254740992) as [Hq|Hq].
  - injection Hq as ->. change (Zdigits2 9007199254740992) with 54.
    replace (fexp prec emax (54 + E) - E) with 1
      by (revert HEmin; unfold fexp, SpecFloat.emin, prec, emax; lia).
    simpl. destruct (E + 1 <=? emax - prec); [|done].
    apply SFleb_finite. lia.
  - assert (Hq53 : Zpos (digits2_pos q) <= 53).
    { pose proof (digits2_pos_bounds q) as [Hq1 _].
      change 9007199254740992 with (2 ^ 53) in Hq.
      destruct (Z.le_gt_cases (Zpos (digits2_pos q)) 53) as [|Hgt]; [done|].
      assert (2 ^ 53 <= 2 ^ (Zpos (digits2_pos q) - 1))
        by (apply Z.pow_le_mono_r; lia).
      lia. }
    simpl Zdigits2. rewrite shr_nonpos
      by (revert HEmin Hq53; unfold fexp, SpecFloat.emin, prec, emax; lia).
    simpl. destruct (E <=? emax - prec); [|done].
    apply SFleb_finite. lia.
Qed.


Lemma shl_align_id mx ex ex' : ex <= ex' -> shl_align mx ex ex' = (mx, ex).
Proof.
  intros H. unfold shl_align. destruct (ex' - ex) eqn:Hd; [done..|lia].
Qed.

Lemma canonical_emin m e :
  canonical_mantissa prec emax m e = true -> emin <= e.
Proof.
  unfold canonical_mantissa. intros H%Z.eqb_eq. revert H.
  unfold fexp, SpecFloat.emin, prec, emax. lia.
Qed.

Lemma SFleb_zero_inv x :
  SFleb (S754_zero false) x = true ->
  (exists s, x = S754_zero s) \/ x = S754_infinity false \/
  (exists m e, x = S754_finite false m e).
Proof.
  destruct x as [s|[]| |[] m e]; try done; eauto.
Qed.

Lemma SFleb_refl x :
  SFleb (S754_zero false) x = true -> SFleb x x = true.
Proof.
  intros [[s ->]|[->|(m & e & ->)]]%SFleb_zero_inv; try done.
  unfold SFleb, SFcompare. by rewrite Z.compare_refl, Pos.compare_cont_refl.
Qed.

Lemma SFleb_trans x y z :
  SFleb x y = true -> SFleb y z = true -> SFleb x z = true.
Proof.
  unfold SFleb, SFcompare.
  destruct x as [[]|[]| |[] mx ex], y as [[]|[]| |[] my ey],
    z as [[]|[]| |[] mz ez]; try done;
    change (Pos.compare_cont Eq) with Pos.compare;
    destruct (Z.compare_spec ex ey), (Z.compare_spec ey ez),
      (Z.compare_spec ex ez); try done; try lia;
    destruct (Pos.compare_spec mx my), (Pos.compare_spec my mz),
      (Pos.compare_spec mx mz); try done; lia.
Qed.

(** Adding a double that is not negative to a double that is not negative
    does not give less, in the arithmetic of the specification. *)
Lemma SFadd_lower x y :
  valid_binary x = true -> valid_binary y = true ->
  SFleb (S754_zero false) x = true -> SFleb (S754_zero false) y = true ->
  SFleb x (SFadd prec emax x y) = true.
Proof.
  intros Vx Vy [[sx ->]|[->|(mx & ex & ->)]]%SFleb_zero_inv
    [[sy ->]|[->|(my & ey & ->)]]%SFleb_zero_inv; try done.
  - by destruct sx, sy.
  - simpl. apply (SFleb_refl (S754_finite false mx ex)). done.
  - simpl in Vx, Vy. unfold bounded in Vx, Vy.
    apply andb_true_iff in Vx as [Cx _]. apply andb_true_iff in Vy as [Cy _].
    pose proof (canonical_emin _ _ Cx) as Hx.
    pose proof (canonical_emin _ _ Cy) as Hy.
    unfold SFadd, cond_Zopp. set (ez := Z.min ex ey).
    pose proof (shl_align_spec mx ex ez ltac:(lia)) as Ha.
    set (a := (shl_align mx ex ez).1) in *.
    set (b := (shl_align my ey ez).1) in *.
    change (Zpos a + Zpos b) with (Zpos (a + b)).
    unfold binary_normalize, binary_round.
    assert (Hd : Zpos (digits2_pos mx) + (ex - ez) <= Zpos (digits2_pos (a + b))).
    { apply digits2_pos_shift; lia. }
    rewrite shl_align_id.
    + apply binary_round_aux_lower; [done|lia|lia].
    + unfold canonical_mantissa in Cx. apply Z.eqb_eq in Cx.
      revert Hd Cx Hx Hy. unfold ez, fexp, SpecFloat.emin, prec, emax. lia.
Qed.

Lemma float_leb_refl (a : float) :
  (0 <=? a)%float = true -> (a <=? a)%float = true.
Proof. rewrite !leb_spec. apply SFleb_refl. Qed.

Lemma float_leb_trans (a b c : float) :
  (a <=? b)%float = true -> (b <=? c)%float = true -> (a <=? c)%float = true.
Proof. rewrite !leb_spec. apply SFleb_trans. Qed.

(** [a <= a + c] for doubles [a] and [c] that are not negative (and so are
    no NaN): the rounded sum of two doubles is not below either. *)
Lemma float_add_nonneg (a c : float) :
  (0 <=? a)%float = true -> (0 <=? c)%float = true ->
  (a <=? a + c)%float = true.
Proof.
  rewrite !leb_spec, add_spec. apply SFadd_lower; apply Prim2SF_valid.
Qed.

End Binary64.

(** The doubles satisfy the order laws. *)
Lemma binary64_order fmt : NumberOrder (binary64 fmt).
Proof.
  split; simpl.
  - reflexivity.
  - apply float_leb_refl.
  - apply float_leb_trans.
  - apply float_add_nonneg.
Qed.

(** C10. The totals start at zero; a turn of the loop leaves them or adds
    the cost and the tokens of the accepted response of its record, once.
    When no response reports a negative cost or token count, the totals, as
    the doubles the program adds, are not negative after any part of the
    batch, and not smaller after a longer part than after a shorter one. *)
Theorem totals_nonneg_nondecreasing fmt (w : @world (binary64 fmt)) pre post :
  nonneg_responses w ->
  let s1 := (for_of w 0 pre initial).2 in
  let s2 := (for_of w 0 (pre ++ post) initial).2 in
  totalCost (initial (N := binary64 fmt)) = 0%float /\
  totalTokens initial = TNum (N := binary64 fmt) 0%float /\
  totals_nonneg s1 = true /\
  totals_nonneg s2 = true /\
  totals_leb s1 s2 = true /\
  (forall i tc s,
     let s' := (iteration w i tc s).2 in
     (totalCost s' = totalCost s /\ totalTokens s' = totalTokens s) \/
     (exists r, embedding w i tc = Return r /\
                totalCost s' = PrimFloat.add (totalCost s) (cost r) /\
                totalTokens s' = plus_total (totalTokens s) (tokens r))).
Proof.
  intros Hw. exact (totals_monotone (L := binary64_order fmt) w pre post Hw).
Qed.

(** ** The scenario, run *)

(** The prompt of the first test case. *)
Example login_prompt {N : JsNumber} :
  inputText tc_login =
    Return (nl ++ "          ID: TC-1" ++
            nl ++ "          Module: Login" ++
            nl ++ "          Title: Valid login" ++
            nl ++ "          Description: A registered user signs in" ++
            nl ++ "          Steps: Open the login page,Submit the form" ++
            nl ++ "          Expected Result: The dashboard is shown" ++
            nl ++ "        ").
Proof. reflexivity. Qed.

Example accepted_body_read fmt :
  read_response (N := binary64 fmt) accepted_body = Return accepted_result.
Proof. vm_compute. reflexivity. Qed.

(** With doubles, one record whose write fails leaves 0.25 and 42 in the
    totals and nothing in the collection. *)
Example failed_write_run fmt :
  let s := (main (N := binary64 fmt) world_write_fails [tc_login]).2 in
  totalCost s = 0.25%float /\
  totalTokens s = TNum (N := binary64 fmt) 42%float /\
  collection s = [].
Proof. vm_compute. repeat split; reflexivity. Qed.

Lemma main_empty {N : JsNumber} (w : world) :
  main w [] = (Return (n_div n_zero (n_of_nat 0)), initial).
Proof. reflexivity. Qed.

(** C2, on the code. For the empty batch the totals are zero and the loop
    does nothing, but the average of line 152 is 0 / 0, which on doubles is
    NaN and not 0: no guard stands before the division. *)
Theorem empty_batch_average_is_nan fmt (w : @world (binary64 fmt)) :
  exists avg : float,
    main w [] = (Return avg, initial) /\
    totalCost (main w []).2 = 0%float /\
    totalTokens (main w []).2 = TNum (N := binary64 fmt) 0%float /\
    PrimFloat.is_nan avg = true /\
    PrimFloat.eqb avg 0 = false.
Proof. exists nan. repeat split; reflexivity. Qed.

(** C3, on the code. A record without a [description] makes line 48 throw
    before the [try] is entered: the error leaves the loop, nothing is
    printed or requested for this record, and the record after it is never
    reached. *)
Theorem missing_description_escapes_loop {N : JsNumber} (w : world) :
  announce tc_no_description = Throw TypeError /\
  announce tc_login = Return () /\
  main w [tc_no_description; tc_login] = (Throw TypeError, initial).
Proof. repeat split; reflexivity. Qed.


Section Doubles.
#[local] Existing Instance ieee.

(** C1 as stated fails: the totals change though the write failed. *)
Lemma totals_unchanged_by_failed_write_counterexample :
  ~ (forall (N : JsNumber) (w : world) i tc r s,
       announce tc = Return () ->
       embedding w i tc = Return r ->
       insertOne w i (make_doc tc r (new_Date w i)) = None ->
       totalCost (iteration w i tc s).2 = totalCost s /\
       totalTokens (iteration w i tc s).2 = totalTokens s).
Proof.
  intros H.
  destruct (H ieee world_write_fails 0 tc_login accepted_result initial)
    as [Hcost _]; try (reflexivity).
  apply (f_equal (PrimFloat.eqb 0.25%float)) in Hcost.
  vm_compute in Hcost. discriminate.
Qed.

Lemma failed_write_keeps_totals_witness :
  exists s',
    iteration world_write_fails 0 tc_login initial = (Return (), s') /\
    totalCost s' = n_add (totalCost initial) (cost accepted_result) /\
    plus (totalTokens initial) (tokens accepted_result) = Return (totalTokens s') /\
    collection s' = collection initial.
Proof.
  apply (failed_write_keeps_totals world_write_fails 0 tc_login
           accepted_result initial); reflexivity.
Defined.

Lemma all_succeed_stores_every_record_witness :
  exists avg s,
    main world_ok [tc_login; tc_logout] = (Return avg, s) /\
    length (collection s) = 2 /\
    (forall i tc, [tc_login; tc_logout] !! i = Some tc ->
       exists r, embedding world_ok i tc = Return r /\
                 collection s !! i = Some (make_doc tc r (new_Date world_ok i))) /\
    avg = n_div (totalCost s) (n_of_nat 2).
Proof.
  apply (all_succeed_stores_every_record world_ok [tc_login; tc_logout]).
  - discriminate.
  - intros [|[|i]] tc Hi; simpl in Hi; try discriminate;
      injection Hi as <-; (split; [reflexivity|]);
      exists accepted_result;
      (split; [reflexivity | eexists; reflexivity]).
Defined.

(** C5 as stated fails where a write fails. In a batch of three, the first
    refused by the API, the second stored, the third accepted and not
    written, two records passed the embedding stage and one document is
    stored. *)
Lemma stored_count_counterexample :
  let batch := [tc_login; tc_logout; tc_reset] in
  length (collection (main world_mixed batch).2) = 1 /\
  length (List.filter is_accepted (outcomes world_mixed 0 batch)) = 2 /\
  length (collection (main world_mixed batch).2) <>
  length (List.filter is_accepted (outcomes world_mixed 0 batch)).
Proof. vm_compute. repeat split; [reflexivity..|discriminate]. Qed.

Lemma failure_isolation_witness :
  failed (outcome_of world_first_refused 0 tc_login) = true /\
  (forall s, exists s',
     iteration world_first_refused 0 tc_login s = (Return (), s') /\
     collection s' = collection s /\
     for_of world_first_refused 0 [tc_login; tc_logout] s =
       for_of world_first_refused 1 [tc_logout] s').
Proof.
  split; [reflexivity|].
  apply (failure_isolation world_first_refused world_ok [] tc_login [tc_logout]).
  - reflexivity.
  - intros [|j] Hj; [lia|]. repeat split.
Defined.

Lemma refused_body_is_skipped_witness :
  exists s',
    iteration world_first_refused 0 tc_login initial = (Return (), s') /\
    totalCost s' = totalCost initial /\
    totalTokens s' = totalTokens initial /\
    collection s' = collection initial /\
    for_of world_first_refused 0 [tc_login; tc_logout] initial =
      for_of world_first_refused 1 [tc_logout] s'.
Proof.
  eapply (refused_body_is_skipped world_first_refused 0 tc_login _
            (n_of_nat 200) refused_body initial [tc_logout]).
  - reflexivity.
  - reflexivity.
  - reflexivity.
  - intros v Hv. injection Hv as <-. reflexivity.
Defined.

Lemma inputText_field_order_witness :
  inputText tc_login = Return login_prompt_text /\
  totalCost (iteration world_prompt_only 0 tc_login initial).2
    = n_add n_zero quarter /\
  iteration world_prompt_refused 0 tc_login initial =
    (Return (),
     {| totalCost := n_zero; totalTokens := TNum n_zero; collection := [];
        console := [Processing 0; Request 0 login_prompt_text;
                    Skipping 0 (diagnose (AxiosError NoResponse))] |}).
Proof.
  destruct (inputText_field_order tc_login "TC-1" "Login" "Valid login"
              "A registered user signs in" "Open the login page,Submit the form"
              "The dashboard is shown") as (Hp & _ & H); try reflexivity.
  split; [exact Hp|]. split.
  - destruct (H world_prompt_only 0 initial eq_refl) as (_ & _ & Hacc & _).
    exact (proj1 (Hacc (n_of_nat 200) accepted_body accepted_result
                    eq_refl eq_refl)).
  - destruct (H world_prompt_refused 0 initial eq_refl) as (_ & Hrej & _).
    exact (Hrej NoResponse eq_refl).
Defined.

Lemma absent_cost_and_tokens_are_zero_witness :
  let doc := make_doc tc_login bare_result (clock 0) in
  read_response (VObj bare_fields) = Return bare_result /\
  (exists s',
     iteration world_bare 0 tc_login initial = (Return (), s') /\
     totalCost s' = n_add n_zero n_zero /\
     plus (TNum n_zero) (VNum n_zero) = Return (totalTokens s') /\
     collection s' = [doc]) /\
  (exists metadata,
     doc !! "embeddingMetadata" = Some (Json metadata) /\
     get metadata "cost" = Return (VNum n_zero) /\
     get metadata "tokens" = Return (VNum n_zero)).
Proof.
  intros doc.
  assert (Hr : read_response (VObj bare_fields) = Return bare_result)
    by reflexivity.
  split; [exact Hr|].
  destruct (absent_cost_and_tokens_are_zero world_bare 0 tc_login
              login_prompt_text (n_of_nat 200) bare_fields bare_result initial
              eq_refl eq_refl eq_refl Hr)
    as (_ & (s' & Hit & _ & _ & Hcost & Htokens & _ & Hcol)
          & (metadata & Hm & _ & _ & Hmc & Hmt & _) & _).
  split.
  - exists s'. split; [exact Hit|]. split; [exact (Hcost eq_refl)|].
    split; [exact (Htokens eq_refl)|]. exact (Hcol (object_id 0) eq_refl).
  - exists metadata. split; [exact Hm|].
    split; [exact (Hmc eq_refl)|exact (Hmt eq_refl)].
Defined.

Lemma stored_document_frame_witness :
  let doc := make_doc tc_login accepted_result (clock 0) in
  outcome_of world_ok 0 tc_login = Stored accepted_result doc /\
  doc !! "embedding" = Some (Json (vector accepted_result)) /\
  doc !! "createdAt" = Some (Date (clock 0)).
Proof.
  intros doc.
  assert (H : outcome_of world_ok 0 tc_login = Stored accepted_result doc)
    by (reflexivity).
  split; [exact H|].
  destruct (stored_document_frame world_ok 0 tc_login accepted_result doc
              initial H) as (_ & He & Hc & _).
  exact (conj He Hc).
Defined.

End Doubles.

Section DoublesOrder.
#[local] Existing Instance ieee.

Lemma world_ok_nonneg : nonneg_responses world_ok.
Proof.
  intros i input status data [= _ <-]. split.
  - intros c Hc. injection Hc as <-. reflexivity.
  - intros u t Hu. injection Hu as <-.
    intros Ht. injection Ht as <-. reflexivity.
Defined.

Lemma totals_nonneg_nondecreasing_witness :
  let s1 := (for_of world_ok 0 [tc_login] initial).2 in
  let s2 := (for_of world_ok 0 ([tc_login] ++ [tc_logout]) initial).2 in
  totals_nonneg s1 = true /\ totals_nonneg s2 = true /\ totals_leb s1 s2 = true.
Proof.
  destruct (totals_nonneg_nondecreasing double_to_string
              world_ok [tc_login] [tc_logout] world_ok_nonneg)
    as (_ & _ & H1 & H2 & H3 & _).
  exact (conj H1 (conj H2 H3)).
Defined.

End DoublesOrder.

(** * More of the program *)

(** ** The request *)

Section RequestFacts.
Context {N : JsNumber}.

Lemma append_empty_r (s : string) : s ++ "" = s.
Proof.
  induction s as [|c s IH]; [done|].
  change (String c (s ++ "") = String c s). by rewrite IH.
Qed.

Lemma truthy_string (s : string) :
  truthy (VStr s) = negb (String.eqb s "").
Proof. reflexivity. Qed.

Lemma endpoint_url_total env : exists url, endpoint env = Return url.
Proof.
  unfold endpoint, template, TESTLEAF_API_BASE, USER_EMAIL, env_var, or_else.
  destruct (env !! "TESTLEAF_API_BASE") as [b|]; simpl;
    [destruct (String.eqb b ""); simpl|];
    destruct (env !! "USER_EMAIL"); simpl; eauto.
Qed.

(** X2. The endpoint of the request. The base is the default when
    [TESTLEAF_API_BASE] is not set or is empty; a [USER_EMAIL] that is not
    set is no error, the path then ends in [undefined]. *)
Theorem endpoint_defaults env :
  let base :=
    match env !! "TESTLEAF_API_BASE" with
    | Some b => if String.eqb b "" then "https://api.testleaf.ai" else b
    | None => "https://api.testleaf.ai"
    end in
  let user := default "undefined" (env !! "USER_EMAIL") in
  endpoint env = Return (base ++ "/embedding/text/" ++ user) /\
  forall input, exists req,
    post_request env input = Return req /\
    request_url req = base ++ "/embedding/text/" ++ user.
Proof.
  intros base user.
  assert (He : endpoint env = Return (base ++ "/embedding/text/" ++ user)).
  { unfold endpoint, template, TESTLEAF_API_BASE, USER_EMAIL, env_var, or_else.
    subst base user.
    destruct (env !! "TESTLEAF_API_BASE") as [b|]; simpl;
      [destruct (String.eqb b "") eqn:Hb; simpl|];
      destruct (env !! "USER_EMAIL") as [u|]; simpl;
      by rewrite ?append_empty_r. }
  split; [exact He|].
  intros input. unfold post_request. rewrite He. simpl.
  unfold authorization, AUTH_TOKEN, env_var, template.
  destruct (env !! "AUTH_TOKEN") as [t|]; simpl;
    [destruct (negb (String.eqb t "")); simpl|]; eauto.
Qed.

(** X1. The headers and the body of the request. [Content-Type] is always
    there; [Authorization] is there exactly when [AUTH_TOKEN] is set and not
    empty, and is then the token behind [Bearer]; there is no other header.
    The body carries the prompt and the fixed model name. *)
Theorem authorization_header env input :
  exists req,
    post_request env input = Return req /\
    request_headers req !! "Content-Type" = Some (VStr "application/json") /\
    request_headers req !! "Authorization" =
      match env !! "AUTH_TOKEN" with
      | Some t => if String.eqb t "" then None else Some (VStr ("Bearer " ++ t))
      | None => None
      end /\
    (forall k, k <> "Content-Type" -> k <> "Authorization" ->
       request_headers req !! k = None) /\
    get (request_data req) "input" = Return (VStr input) /\
    get (request_data req) "model" = Return (VStr "text-embedding-3-small").
Proof.
  destruct (endpoint_url_total env) as [url Hu].
  unfold post_request. rewrite Hu. simpl.
  unfold authorization, AUTH_TOKEN, env_var, template.
  assert (Hother : forall (m : gmap string value) k,
            k <> "Content-Type" -> m !! k = None ->
            (m ∪ {[ "Content-Type" := VStr "application/json" ]}) !! k = None).
  { intros m k Hk Hm. apply lookup_union_None_2; [done|].
    by rewrite lookup_singleton_ne. }
  destruct (env !! "AUTH_TOKEN") as [t|]; simpl.
  - destruct (String.eqb t "") eqn:Ht; simpl.
    + eexists. split; [done|]. simpl. repeat split; try done.
      * apply String.eqb_eq in Ht as ->. done.
      * apply String.eqb_eq in Ht as ->. done.
      * intros k Hk _. apply String.eqb_eq in Ht as ->. by apply Hother.
    + eexists. split; [done|]. simpl. rewrite append_empty_r.
      repeat split; try done.
      intros k Hk Hk'. apply Hother; [done|]. by rewrite lookup_singleton_ne.
  - eexists. split; [done|]. simpl. repeat split; try done.
    intros k Hk _. by apply Hother.
Qed.

End RequestFacts.

(** ** The run as a whole *)

Section RunFacts.
Context {N : JsNumber}.

(** Printing a value throws nothing but a TypeError. *)
Lemma to_string_throws : forall v e, to_string v = Throw e -> e = TypeError.
Proof.
  fix IH 1. intros [| |b|n|s|l|m] e; simpl; try discriminate.
  - by destruct b.
  - induction l as [|x l IHl]; [discriminate|].
    destruct l as [|y l'].
    + destruct (nullish x); [discriminate|]. apply IH.
    + destruct (nullish x); simpl.
      * match goal with |- (?j ≫= _) = _ -> _ => destruct j eqn:Hj end;
          simpl; [discriminate|].
        intros [= <-]. by apply IHl.
      * destruct (to_string x) eqn:Hs; simpl.
        -- match goal with |- (?j ≫= _) = _ -> _ => destruct j eqn:Hj end;
             simpl; [discriminate|].
           intros [= <-]. by apply IHl.
        -- intros [= <-]. by apply (IH x).
  - destruct (m !! "toString"); [|discriminate]. by intros [= <-].
Qed.

Lemma get_throws v k e : get v k = Throw e -> e = TypeError.
Proof. destruct v; simpl; try discriminate; by intros [= <-]. Qed.

(** Line 48 throws nothing but a TypeError. *)
Lemma announce_throws tc e : announce tc = Throw e -> e = TypeError.
Proof.
  unfold announce.
  destruct (get tc "id") as [id|e1] eqn:H1; simpl;
    [|intros [= <-]; by eapply get_throws].
  destruct (to_string id) as [s|e2] eqn:H2; simpl;
    [|intros [= <-]; by eapply to_string_throws].
  destruct (get tc "description") as [d|e3] eqn:H3; simpl;
    [|intros [= <-]; by eapply get_throws].
  destruct d; simpl; try discriminate; by intros [= <-].
Qed.

(** Line 48 passes exactly for the well shaped test cases. *)
Lemma announce_well_shaped tc : announce tc = Return () <-> well_shaped tc.
Proof.
  split.
  - unfold announce. intros H.
    destruct tc as [| |b|n|s|l|m]; simpl in H; try discriminate.
    all: destruct (to_string _) as [s'|] eqn:Hs; simpl in H; try discriminate.
    destruct (m !! "description") as [[]|] eqn:Hd; try discriminate.
    exists m. eauto.
  - intros (m & d & s & -> & Hd & Hs). unfold announce. simpl.
    rewrite Hs, Hd. done.
Qed.

Lemma not_well_shaped_throws tc :
  ~ well_shaped tc -> announce tc = Throw TypeError.
Proof.
  intros H. destruct (announce tc) as [[]|e] eqn:Ha.
  - destruct H. by apply announce_well_shaped.
  - by rewrite (announce_throws tc e Ha).
Qed.

Lemma outcomes_length w tcs : forall i, length (outcomes w i tcs) <= length tcs.
Proof.
  induction tcs as [|tc tcs IH]; intros i; simpl; [done|].
  destruct (outcome_of w i tc); simpl; try lia; specialize (IH (S i)); lia.
Qed.

Lemma omap_length_le {A B} (f : A -> option B) (l : list A) :
  length (omap f l) <= length l.
Proof.
  induction l as [|x l IH]; simpl; [done|].
  unfold omap in IH. destruct (f x); simpl; lia.
Qed.

(** X3. When every test case of the batch is well shaped, the run reaches
    its summary whatever the API and the store answer: no error of a request,
    of a response or of a write leaves the loop. The average is the total
    cost over the length of the batch and the collection gains at most one
    document per test case. *)
Theorem well_shaped_batch_reaches_summary w tcs :
  Forall well_shaped tcs ->
  exists avg s,
    main w tcs = (Return avg, s) /\
    avg = n_div (totalCost s) (n_of_nat (length tcs)) /\
    length (collection s) <= length tcs.
Proof.
  intros Hall.
  destruct (for_of_completes w tcs 0 initial) as [s Hs].
  { eapply Forall_impl; [exact Hall|]. intros tc. apply announce_well_shaped. }
  exists (n_div (totalCost s) (n_of_nat (length tcs))), s.
  unfold main. cbv [mbind js_bind average]. rewrite Hs. repeat split.
  destruct (for_of_outcomes w tcs 0 initial) as (Hc & _).
  rewrite Hs in Hc. simpl in Hc. rewrite Hc.
  etrans; [apply omap_length_le|apply outcomes_length].
Qed.

(** X4. When a test case that is not well shaped follows well shaped ones,
    the run ends in the outer [catch] with a TypeError and without a
    summary, in the state the loop had reached: the documents of the earlier
    test cases stay in the collection and their cost and tokens in the
    totals, and the test cases after it are never looked at. *)
Theorem escaping_record_keeps_earlier_work w pre tc post :
  Forall well_shaped pre ->
  ~ well_shaped tc ->
  exists s,
    for_of w 0 pre initial = (Return (), s) /\
    main w (pre ++ tc :: post) = (Throw TypeError, s) /\
    (main w pre).2 = s /\
    forall post', main w (pre ++ tc :: post') = main w (pre ++ tc :: post).
Proof.
  intros Hpre Htc.
  destruct (for_of_completes w pre 0 initial) as [s Hs].
  { eapply Forall_impl; [exact Hpre|]. intros x. apply announce_well_shaped. }
  pose proof (not_well_shaped_throws tc Htc) as Ha.
  assert (Hmain : forall p, main w (pre ++ tc :: p) = (Throw TypeError, s)).
  { intros p. unfold main. cbv [mbind js_bind average].
    rewrite for_of_app, Hs, (announce_throw_escapes _ _ _ _ _ _ Ha). done. }
  exists s. split; [done|]. split; [apply Hmain|].
  split; [by rewrite main_state, Hs|].
  intros post'. by rewrite !Hmain.
Qed.

Lemma main_first_escapes w tc rest e :
  announce tc = Throw e -> main w (tc :: rest) = (Throw e, initial).
Proof.
  intros Ha. unfold main. cbv [mbind js_bind average].
  by rewrite (announce_throw_escapes _ _ _ _ _ _ Ha).
Qed.

(** [iterate] on what is not an array. *)
Lemma iterate_not_array v :
  (forall l, v <> VArr l) ->
  iterate v = Throw TypeError \/
  exists s, v = VStr s /\
            iterate v = Return ((fun c => VStr (String c EmptyString)) <$>
                                String.list_ascii_of_string s).
Proof.
  intros Hv. unfold iterate.
  destruct v as [| |b|n|s|l|m]; simpl; eauto.
  - by destruct (Hv l).
  - destruct (to_string (default VUndefined (m !! "length"))) eqn:Hs; simpl;
      [by left|].
    left. by rewrite (to_string_throws _ _ Hs).
Qed.

(** X5. No request is sent and no document stored unless the connection is
    up and the input file parses to an array. When the file holds any other
    JSON value the run ends in the outer [catch] with a TypeError: at line
    36 for [null], at the [for ... of] for an object, a number or a boolean,
    at line 48 on the first character for a string. Only the empty string
    gets to the summary, over an empty loop. *)
Theorem no_array_no_work o :
  (connects o = false -> program o = (Caught ConnectionError, initial, closes o)) /\
  (connects o = true -> input_file o = None ->
     program o = (Caught InputError, initial, closes o)) /\
  (forall v, connects o = true -> input_file o = Some v ->
     (forall l, v <> VArr l) ->
     (program o).1.2 = initial /\
     (v <> VStr "" -> (program o).1.1 = Caught (Uncaught TypeError))).
Proof.
  unfold program. split; [by intros ->|]. split; [by intros -> ->|].
  intros v Hc Hf Hv. rewrite Hc, Hf.
  destruct (iterate_not_array v Hv) as [->|(s & -> & ->)]; [done|].
  destruct s as [|c s]; [done|].
  change (String.list_ascii_of_string (String c s))
    with (c :: String.list_ascii_of_string s).
  rewrite fmap_cons, (main_first_escapes _ _ _ TypeError) by reflexivity.
  done.
Qed.

End RunFacts.

(** ** What one record prints, requests and stores *)

Section TraceFacts.
Context {N : JsNumber}.

(** X6. A request that axios rejects costs the run nothing: the totals and
    the collection stay as they were, the loop goes on, and the console
    tells the three cases of lines 129-141 apart: the status and body of a
    response outside 2xx, no response at all, or only a message. *)
Theorem rejected_request_is_skipped w i tc input e s :
  announce tc = Return () ->
  inputText tc = Return input ->
  axios_post w i input = Rejected e ->
  iteration w i tc s =
    (Return (),
     {| totalCost := totalCost s; totalTokens := totalTokens s;
        collection := collection s;
        console :=
          (console s ++
           [Processing i; Request i input;
            Skipping i match e with
                       | BadStatus status body => HttpStatus status body
                       | NoResponse => NoResponseReceived
                       | SetupFailure _ => ErrorMessage
                       end])%list |}).
Proof.
  intros Ha Hi Hp.
  cbv [iteration process try_catch request_embedding report_insert mbind
       js_bind mret js_ret eval console_log add_to_totals insert_doc].
  rewrite Ha, Hi. cbn. rewrite Hp. cbn. rewrite <- !app_assoc.
  by destruct e.
Qed.

(** X7. An error of a line after the write does not undo the write: when
    [insertOne] has returned and printing [result.insertedId] (line 119)
    throws, the document is in the collection and the cost and tokens are in
    the totals, yet the console reports the record as skipped. *)
Theorem error_after_write_keeps_document w i tc input r id e s :
  announce tc = Return () ->
  inputText tc = Return input ->
  embedding w i tc = Return r ->
  insertOne w i (make_doc tc r (new_Date w i)) = Some id ->
  to_string id = Throw e ->
  iteration w i tc s =
    (Return (),
     {| totalCost := n_add (totalCost s) (cost r);
        totalTokens := plus_total (totalTokens s) (tokens r);
        collection := (collection s ++ [make_doc tc r (new_Date w i)])%list;
        console :=
          (console s ++
           [Processing i; Request i input; Inserted i;
            Skipping i ErrorMessage])%list |}).
Proof.
  intros Ha Hi He Hw Hid.
  pose proof (embedding_tokens w i tc r He (totalTokens s)) as Hplus.
  unfold embedding in He. rewrite Hi in He. simpl in He.
  cbv [iteration process try_catch request_embedding report_insert mbind
       js_bind mret js_ret eval console_log add_to_totals insert_doc].
  rewrite Ha, Hi. cbn.
  destruct (axios_post w i input) as [status data|]; [|discriminate].
  rewrite He. cbn. rewrite Hplus. cbn. rewrite Hw. cbn. rewrite Hid. cbn.
  rewrite <- !app_assoc. by rewrite (to_string_throws _ _ Hid).
Qed.

(** One turn of the loop prints one of the five traces of a record and adds
    as many documents as its trace tells. *)
Lemma iteration_trace w i tc s :
  exists c n,
    record_trace i c n /\
    console (iteration w i tc s).2 = (console s ++ c)%list /\
    length (collection (iteration w i tc s).2) = length (collection s) + n.
Proof.
  cbv [iteration process try_catch request_embedding report_insert mbind
       js_bind mret js_ret eval console_log add_to_totals insert_doc].
  destruct (announce tc) as [[]|e].
  2:{ exists [], 0. split; [constructor|].
      cbn. by rewrite app_nil_r, Nat.add_0_r. }
  destruct (inputText tc) as [input|e]; cbn.
  2:{ eexists _, 0. split; [apply trace_no_prompt|].
      rewrite <- ?app_assoc. split; [reflexivity|lia]. }
  destruct (axios_post w i input) as [status data|e]; cbn.
  2:{ eexists _, 0. split; [apply (trace_skipped i input)|].
      rewrite <- ?app_assoc. split; [reflexivity|lia]. }
  destruct (read_response data) as [r|e]; cbn.
  2:{ eexists _, 0. split; [apply (trace_skipped i input)|].
      rewrite <- ?app_assoc. split; [reflexivity|lia]. }
  destruct (plus (totalTokens s) (tokens r)); cbn.
  2:{ eexists _, 0. split; [apply (trace_skipped i input)|].
      rewrite <- ?app_assoc. split; [reflexivity|lia]. }
  destruct (insertOne w i _) as [id|]; cbn.
  2:{ eexists _, 0. split; [apply (trace_skipped i input)|].
      rewrite <- ?app_assoc. split; [reflexivity|lia]. }
  destruct (to_string id); cbn.
  - eexists _, 1. split; [apply (trace_inserted i input)|].
    rewrite <- ?app_assoc, length_app. split; [reflexivity|simpl; lia].
  - eexists _, 1. split; [apply (trace_inserted_skipped i input)|].
    rewrite <- ?app_assoc, length_app. split; [reflexivity|simpl; lia].
Qed.

Lemma count_app p (c1 c2 : list event) :
  count p (c1 ++ c2) = count p c1 + count p c2.
Proof. unfold count. by rewrite List.filter_app, length_app. Qed.

(** In the trace of record [i] there is at most one request, for [i], an
    insert only behind a request, and as many inserts as documents. *)
Lemma record_trace_counts i c n j :
  record_trace i c n ->
  count (is_request_of j) c <= (if Nat.eqb i j then 1 else 0) /\
  count (is_inserted_of j) c <= count (is_request_of j) c /\
  count is_inserted c = n.
Proof.
  intros H. destruct H; unfold count; simpl; destruct (Nat.eqb i j); simpl; lia.
Qed.

(** X8. The loop never tries a record again. In what a run adds to the
    console there is at most one request per record and none for a position
    outside the batch, a record is reported as inserted only behind its
    request and at most once, and the collection grows by one document for
    each insert the console reports. *)
Theorem no_retry w tcs : forall i s,
  exists c,
    console (for_of w i tcs s).2 = (console s ++ c)%list /\
    (forall j,
       count (is_request_of j) c <= 1 /\
       count (is_inserted_of j) c <= count (is_request_of j) c /\
       (j < i \/ i + length tcs <= j -> count (is_request_of j) c = 0)) /\
    length (collection (for_of w i tcs s).2) =
      length (collection s) + count is_inserted c.
Proof.
  induction tcs as [|tc tcs IH]; intros i s.
  - exists []. simpl. rewrite app_nil_r. repeat split; unfold count; simpl; lia.
  - rewrite for_of_cons.
    destruct (iteration_trace w i tc s) as (c1 & n & Ht & Hc1 & Hn).
    destruct (iteration w i tc s) as [[[]|e] s1]; simpl in Hc1, Hn.
    + destruct (IH (S i) s1) as (c2 & Hc2 & Hj & Hlen).
      exists (c1 ++ c2)%list. rewrite Hc2, Hc1, <- app_assoc.
      split; [done|]. split.
      * intros j. rewrite !count_app.
        destruct (record_trace_counts i c1 n j Ht) as (H1 & H2 & _).
        destruct (Hj j) as (H3 & H4 & H5).
        destruct (Nat.eqb_spec i j) as [->|Hne].
        -- rewrite H5 in * by lia. repeat split; try lia.
           intros [?|?]; simpl in *; lia.
        -- repeat split; try lia. intros Hout. rewrite H5; simpl in *; lia.
      * rewrite Hlen, Hn, count_app.
        destruct (record_trace_counts i c1 n 0 Ht) as (_ & _ & <-). lia.
    + exists c1. split; [done|]. split.
      * intros j.
        destruct (record_trace_counts i c1 n j Ht) as (H1 & H2 & _).
        destruct (Nat.eqb_spec i j) as [->|Hne]; repeat split; try lia.
        intros [?|?]; simpl in *; lia.
      * destruct (record_trace_counts i c1 n 0 Ht) as (_ & _ & <-).
        simpl. lia.
Qed.

End TraceFacts.

(** ** What a response must hold, and what is not checked *)

Section ResponseFacts.
Context {N : JsNumber}.

Lemma to_fixed_number v n : to_fixed v = Return n -> v = VNum n.
Proof. destruct v; simpl; try discriminate. by intros [= ->]. Qed.

(** X9. What acceptance of a response tells: the body is an object whose
    [status] is the number 200 and whose [data] has a first item that is
    neither [undefined] nor [null]; the vector is the [embedding] of that
    item, whatever it is; the cost is the number under [cost], or 0 when
    that is falsy; the tokens are the [total_tokens] of [usage], or 0 when
    falsy; the model is what stands under [model]. *)
Theorem accepted_response_shape data r :
  read_response data = Return r ->
  exists m item reported,
    data = VObj m /\
    is_200 (default VUndefined (m !! "status")) = true /\
    get_first (default VUndefined (m !! "data")) = Return item /\
    nullish item = false /\
    get item "embedding" = Return (vector r) /\
    or_else (default VUndefined (m !! "cost")) (VNum n_zero) = VNum (cost r) /\
    get_optional (default VUndefined (m !! "usage")) "total_tokens"
      = Return reported /\
    tokens r = or_else reported (VNum n_zero) /\
    model r = default VUndefined (m !! "model").
Proof.
  intros H. unfold read_response in H.
  destruct data as [| |b|n|s|l|m]; simpl get in H; try discriminate.
  all: try (solve [simpl in H; discriminate]).
  bind_inv H. injection H as <-. simpl.
  repeat match goal with
  | Hm : mret _ = Return _ |- _ => inversion Hm; subst; clear Hm
  end.
  match goal with
  | Hs : (if is_200 ?v then _ else _) = Return _ |- _ =>
      destruct (is_200 v) eqn:H200;
        [|destruct (to_string (default VUndefined (m !! "message")));
          discriminate]
  end.
  match goal with
  | Hf : to_fixed _ = Return _ |- _ => apply to_fixed_number in Hf
  end.
  match goal with
  | Hi : get_first _ = Return ?item, Hg : get ?item "embedding" = Return _ |- _ =>
      exists m, item; eexists; repeat split; eauto;
      destruct item; try done; discriminate
  end.
Qed.

(** X10. A body with status 200 and without a first data item is a failure
    of the record, a TypeError at line 86: so it is for an accepted body
    whose [data] is taken out, emptied, or given [null] as its first item. *)
Theorem missing_data_is_refused m r :
  read_response (VObj m) = Return r ->
  read_response (VObj (delete "data" m)) = Throw TypeError /\
  read_response (VObj (<["data" := VArr []]> m)) = Throw TypeError /\
  read_response (VObj (<["data" := VArr [VNull]]> m)) = Throw TypeError.
Proof.
  intros Hr. pose proof Hr as H. unfold read_response in H. simpl get in H.
  bind_inv H. injection H as <-.
  repeat match goal with
  | Hm : mret _ = Return _ |- _ => inversion Hm; subst; clear Hm
  end.
  repeat apply conj; unfold read_response; simpl get.
  - rewrite lookup_delete_eq, !lookup_delete_ne by done. replay.
  - rewrite lookup_insert_eq, !lookup_insert_ne by done. replay.
  - rewrite lookup_insert_eq, !lookup_insert_ne by done. replay.
Qed.

(** X11. The vector is not checked. An accepted body whose first data item
    has no [embedding] is accepted all the same, with an [undefined] vector,
    and the document built from it carries [undefined] under [embedding]. *)
Theorem missing_embedding_is_accepted m r :
  read_response (VObj m) = Return r ->
  read_response (VObj (<["data" := VArr [VObj ∅]]> m))
    = Return (with_vector VUndefined r) /\
  forall tc created,
    make_doc tc (with_vector VUndefined r) created !! "embedding"
      = Some (Json VUndefined).
Proof.
  intros Hr. pose proof Hr as H. unfold read_response in H. simpl get in H.
  bind_inv H. injection H as <-.
  repeat match goal with
  | Hm : mret _ = Return _ |- _ => inversion Hm; subst; clear Hm
  end.
  split.
  - unfold read_response. simpl get.
    rewrite lookup_insert_eq, !lookup_insert_ne by done. replay.
  - intros tc created. unfold make_doc.
    by rewrite lookup_insert_ne, lookup_insert_ne, lookup_insert_eq.
Qed.

(** X12. The cost is checked by [toFixed] only. Put in place of the cost of
    an accepted body, a truthy value that is not a number (a string, [true],
    an object, an array) makes the record fail with a TypeError at line 92,
    before the totals are touched; a falsy value ([null], [false], the empty
    string, 0) counts as a cost of 0. *)
Theorem cost_must_be_a_number m r c :
  read_response (VObj m) = Return r ->
  (truthy c = true -> (forall n, c <> VNum n) ->
     read_response (VObj (<["cost" := c]> m)) = Throw TypeError) /\
  (truthy c = false ->
     read_response (VObj (<["cost" := c]> m)) =
       Return {| vector := vector r; cost := n_zero;
                 tokens := tokens r; model := model r |}).
Proof.
  intros Hr. pose proof Hr as H. unfold read_response in H. simpl get in H.
  bind_inv H. injection H as <-.
  repeat match goal with
  | Hm : mret _ = Return _ |- _ => inversion Hm; subst; clear Hm
  end.
  split; intros Hc; [intros Hn|].
  - assert (Hor : or_else c (VNum n_zero) = c) by (unfold or_else; by rewrite Hc).
    assert (Hf : to_fixed c = Throw TypeError).
    { destruct c; try done. by destruct (Hn n). }
    unfold read_response. simpl get.
    rewrite lookup_insert_eq, !lookup_insert_ne by done.
    replay. rewrite Hor, Hf. done.
  - assert (Hor : or_else c (VNum n_zero) = VNum n_zero)
      by (unfold or_else; by rewrite Hc).
    unfold read_response. simpl get.
    rewrite lookup_insert_eq, !lookup_insert_ne by done.
    replay. rewrite Hor. replay.
Qed.

Lemma plus_string s b t :
  plus (TStr s) b = Return t -> is_string_total t = true.
Proof.
  destruct b as [| |[]| | | |]; simpl; try (by intros [= <-]).
  - match goal with |- (?c ≫= _) = _ -> _ => destruct c end; simpl;
      [by intros [= <-]|discriminate].
  - destruct (m !! "toString"); simpl; [discriminate|by intros [= <-]].
Qed.

Lemma plus_total_string t b :
  is_string_total t = true -> is_string_total (plus_total t b) = true.
Proof.
  destruct t as [|s]; [discriminate|]. intros _. unfold plus_total.
  destruct (plus (TStr s) b) eqn:Hp; [|done]. by eapply plus_string.
Qed.

Lemma iteration_keeps_string_total w i tc s :
  is_string_total (totalTokens s) = true ->
  is_string_total (totalTokens (iteration w i tc s).2) = true.
Proof.
  intros Hs. pose proof (iteration_spec w i tc s) as H.
  destruct (outcome_of w i tc); [rewrite H; done|..];
    destruct H as [c ->]; simpl; auto using plus_total_string.
Qed.

(** X13. The token count is not checked. An accepted body whose
    [total_tokens] is a string that is not empty is accepted, [+=] then
    appends the string to the rendering of the total instead of adding a
    number, and from a total that is a string the loop never gets back to a
    number. *)
Theorem string_tokens_turn_total_into_string m r t :
  read_response (VObj m) = Return r ->
  t <> "" ->
  read_response
    (VObj (<["usage" := VObj {[ "total_tokens" := VStr t ]}]> m))
    = Return (with_tokens (VStr t) r) /\
  (forall s,
     (add_to_totals (with_tokens (VStr t) r) s).1 = Return () /\
     totalTokens (add_to_totals (with_tokens (VStr t) r) s).2
       = TStr (total_to_string (totalTokens s) ++ t)) /\
  (forall w tcs i s,
     is_string_total (totalTokens s) = true ->
     is_string_total (totalTokens (for_of w i tcs s).2) = true).
Proof.
  intros Hr Ht. pose proof Hr as H. unfold read_response in H. simpl get in H.
  bind_inv H. injection H as <-.
  repeat match goal with
  | Hm : mret _ = Return _ |- _ => inversion Hm; subst; clear Hm
  end.
  assert (Htruthy : truthy (VStr t) = true).
  { simpl. destruct (String.eqb_spec t ""); done. }
  repeat apply conj.
  - unfold read_response. simpl get.
    rewrite lookup_insert_eq, !lookup_insert_ne by done. simpl.
    rewrite lookup_singleton_eq. simpl.
    assert (Hor : or_else (VStr t) (VNum n_zero) = VStr t)
      by (unfold or_else; by rewrite Htruthy).
    rewrite !Hor. replay.
  - intros s. unfold add_to_totals. simpl. by split.
  - intros w tcs. induction tcs as [|tc tcs IH]; intros i s Hs; [done|].
    rewrite for_of_cons.
    pose proof (iteration_keeps_string_total w i tc s Hs) as Hit.
    destruct (iteration w i tc s) as [[[]|e] s1]; [|done]. by apply IH.
Qed.

End ResponseFacts.

(** ** The scenario, once more *)

Section MoreDoubles.
#[local] Existing Instance ieee.

Lemma tc_login_well_shaped : well_shaped tc_login.
Proof. eexists _, _, _. repeat split; reflexivity. Defined.

Lemma tc_logout_well_shaped : well_shaped tc_logout.
Proof. eexists _, _, _. repeat split; reflexivity. Defined.

Lemma tc_no_description_not_well_shaped : ~ well_shaped tc_no_description.
Proof.
  intros (m & d & s & Hm & Hd & _). injection Hm as <-.
  enough (E : @None value = Some (VStr d)) by discriminate E.
  exact Hd.
Defined.

Lemma well_shaped_batch_reaches_summary_witness :
  exists avg s,
    main world_mixed [tc_login; tc_logout] = (Return avg, s) /\
    avg = n_div (totalCost s) (n_of_nat 2) /\
    length (collection s) <= 2.
Proof.
  apply (well_shaped_batch_reaches_summary world_mixed [tc_login; tc_logout]).
  repeat constructor.
  - exact tc_login_well_shaped.
  - exact tc_logout_well_shaped.
Defined.

Lemma escaping_record_keeps_earlier_work_witness :
  exists s,
    for_of world_ok 0 [tc_login] initial = (Return (), s) /\
    main world_ok ([tc_login] ++ tc_no_description :: [tc_logout])
      = (Throw TypeError, s) /\
    (main world_ok [tc_login]).2 = s /\
    forall post',
      main world_ok ([tc_login] ++ tc_no_description :: post')
      = main world_ok ([tc_login] ++ tc_no_description :: [tc_logout]).
Proof.
  apply (escaping_record_keeps_earlier_work world_ok [tc_login]
           tc_no_description [tc_logout]).
  - repeat constructor. exact tc_login_well_shaped.
  - exact tc_no_description_not_well_shaped.
Defined.

Lemma no_array_no_work_witness :
  (program outside_string).1.2 = initial /\
  (program outside_string).1.1 = Caught (Uncaught TypeError).
Proof.
  destruct (no_array_no_work outside_string) as (_ & _ & H).
  destruct (H (VStr "[]")) as [H1 H2];
    [reflexivity | reflexivity | discriminate |].
  split; [exact H1|]. apply H2. discriminate.
Defined.

Lemma rejected_request_is_skipped_witness :
  exists input,
    inputText tc_login = Return input /\
    iteration world_server_error 0 tc_login initial =
      (Return (),
       {| totalCost := totalCost initial; totalTokens := totalTokens initial;
          collection := collection initial;
          console :=
            [Processing 0; Request 0 input;
             Skipping 0 (HttpStatus (n_of_nat 500)
                                    (VStr "Internal Server Error"))] |}).
Proof.
  eexists. split; [reflexivity|].
  apply (rejected_request_is_skipped world_server_error 0 tc_login _
           (BadStatus (n_of_nat 500) (VStr "Internal Server Error")) initial);
    reflexivity.
Defined.

Lemma error_after_write_keeps_document_witness :
  exists input,
    inputText tc_login = Return input /\
    iteration world_odd_id 0 tc_login initial =
      (Return (),
       {| totalCost := n_add (totalCost initial) (cost accepted_result);
          totalTokens := plus_total (totalTokens initial) (tokens accepted_result);
          collection := [make_doc tc_login accepted_result (clock 0)];
          console :=
            [Processing 0; Request 0 input; Inserted 0;
             Skipping 0 ErrorMessage] |}).
Proof.
  eexists. split; [reflexivity|].
  apply (error_after_write_keeps_document world_odd_id 0 tc_login _
           accepted_result (object [("toString", VNum n_one)]) TypeError initial);
    reflexivity.
Defined.

Lemma accepted_response_shape_witness :
  exists m item reported,
    accepted_body = VObj m /\
    is_200 (default VUndefined (m !! "status")) = true /\
    get_first (default VUndefined (m !! "data")) = Return item /\
    nullish item = false /\
    get item "embedding" = Return (vector accepted_result) /\
    or_else (default VUndefined (m !! "cost")) (VNum n_zero)
      = VNum (cost accepted_result) /\
    get_optional (default VUndefined (m !! "usage")) "total_tokens"
      = Return reported /\
    tokens accepted_result = or_else reported (VNum n_zero) /\
    model accepted_result = default VUndefined (m !! "model").
Proof.
  apply (accepted_response_shape accepted_body accepted_result).
  reflexivity.
Defined.

Lemma accepted_body_is_read :
  read_response (VObj accepted_fields) = Return accepted_result.
Proof. reflexivity. Defined.

Lemma missing_data_is_refused_witness :
  read_response (VObj (delete "data" accepted_fields)) = Throw TypeError /\
  read_response (VObj (<["data" := VArr []]> accepted_fields)) = Throw TypeError /\
  read_response (VObj (<["data" := VArr [VNull]]> accepted_fields))
    = Throw TypeError.
Proof.
  exact (missing_data_is_refused accepted_fields accepted_result
           accepted_body_is_read).
Defined.

Lemma missing_embedding_is_accepted_witness :
  read_response (VObj (<["data" := VArr [VObj ∅]]> accepted_fields))
    = Return (with_vector VUndefined accepted_result).
Proof.
  apply (missing_embedding_is_accepted accepted_fields accepted_result
           accepted_body_is_read).
Defined.

Lemma cost_must_be_a_number_witness :
  read_response (VObj (<["cost" := VStr "0.25"]> accepted_fields))
    = Throw TypeError.
Proof.
  apply (cost_must_be_a_number accepted_fields accepted_result (VStr "0.25")
           accepted_body_is_read).
  - reflexivity.
  - discriminate.
Defined.

Lemma string_tokens_turn_total_into_string_witness :
  read_response
    (VObj (<["usage" := VObj {[ "total_tokens" := VStr "42" ]}]> accepted_fields))
    = Return (with_tokens (VStr "42") accepted_result) /\
  total_to_string (totalTokens initial) = "0" /\
  (add_to_totals (with_tokens (VStr "42") accepted_result) initial).1
    = Return () /\
  totalTokens (add_to_totals (with_tokens (VStr "42") accepted_result) initial).2
    = TStr "042".
Proof.
  destruct (string_tokens_turn_total_into_string accepted_fields accepted_result
              "42" accepted_body_is_read) as (H1 & H2 & _); [discriminate|].
  split; [exact H1|]. split; [reflexivity|]. exact (H2 initial).
Defined.

End MoreDoubles.
